(** * progriv-app1: error-file parser and campaign-row assembler

    A shallow embedding of [app/error_parser.py] and of the pure parts of
    [app/generator.py], followed by the properties of the specification
    that were checked against it.

    Conventions of the embedding.
    - A Python [str] is a [string]; its characters are the code points
      below 256.  The model agrees with Python on ASCII text: [lower]
      folds [A-Z] only and [strip] removes the ASCII blanks
      (9-13, 28-32); code points from 128 on are treated as caseless and
      non-blank.
    - A [dict] with string keys (a row yielded by [csv.DictReader], a row
      handed to [csv.DictWriter], the configuration bag) is a
      [gmap string string]; a cell holding [None] is an absent key.
    - A [dict] whose iteration order matters is an association list with
      Python's update-in-place insertion.
    - Counters are [nat]; an exception is the left injection of a sum. *)

From Stdlib Require Import Ascii String.
From stdpp Require Import base gmap strings list pretty sorting.

(** ** Python string primitives *)

Module Py.

(** [len(s)] *)
Abbreviation len := String.length.

(** [s[:n]] *)
Fixpoint str_take (n : nat) (s : string) : string :=
  match n, s with
  | S n', String c r => String c (str_take n' r)
  | _, _ => ""
  end.

(** [s[n:]] *)
Fixpoint str_drop (n : nat) (s : string) : string :=
  match n, s with
  | S n', String _ r => str_drop n' r
  | _, _ => s
  end.

Definition is_upper (c : ascii) : bool :=
  let n := nat_of_ascii c in (65 <=? n) && (n <=? 90).

Definition lower_char (c : ascii) : ascii :=
  if is_upper c then ascii_of_nat (nat_of_ascii c + 32) else c.

(** [s.lower()] on ASCII text: the letters A-Z are folded, one character
    at a time, and every other character is left as it is. *)
Fixpoint lower (s : string) : string :=
  match s with
  | "" => ""
  | String c r => String (lower_char c) (lower r)
  end.

(** The ASCII characters [str.strip()] removes. *)
Definition isspace (c : ascii) : bool :=
  let n := nat_of_ascii c in
  ((9 <=? n) && (n <=? 13)) || ((28 <=? n) && (n <=? 32)).

Fixpoint lstrip (s : string) : string :=
  match s with
  | "" => ""
  | String c r => if isspace c then lstrip r else s
  end.

Fixpoint rstrip (s : string) : string :=
  match s with
  | "" => ""
  | String c r =>
      match rstrip r with
      | "" => if isspace c then "" else String c ""
      | r' => String c r'
      end
  end.

(** [s.strip()] *)
Definition strip (s : string) : string := rstrip (lstrip s).

(** [s.startswith(p)] *)
Fixpoint startswith (p s : string) : bool :=
  match p, s with
  | "", _ => true
  | String a p', String b s' => Ascii.eqb a b && startswith p' s'
  | String _ _, "" => false
  end.

(** [sub in s] *)
Fixpoint str_in (sub s : string) : bool :=
  startswith sub s ||
  match s with
  | "" => false
  | String _ r => str_in sub r
  end.

(** [any(w in s for w in ws)] *)
Definition any_in (ws : list string) (s : string) : bool :=
  existsb (λ w, str_in w s) ws.

(** [s.split(sep, 1)] for a non-empty separator: the text before and
    after the first occurrence of [sep], or [s] alone. *)
Fixpoint split1 (sep s : string) : list string :=
  if startswith sep s then [""; str_drop (len sep) s]
  else match s with
       | "" => [""]
       | String c r =>
           match split1 sep r with
           | [a; b] => [String c a; b]
           | _ => [s]
           end
       end.

(** [s.rsplit(c, 1)] for a one-character separator: the text before and
    after the last occurrence of [c], or [s] alone. *)
Fixpoint rsplit1 (c : ascii) (s : string) : list string :=
  match s with
  | "" => [""]
  | String a r =>
      match rsplit1 c r with
      | [x; y] => [String a x; y]
      | _ => if Ascii.eqb a c then [""; r] else [s]
      end
  end.

(** [s.replace(old, new)] for one-character [old] and [new]. *)
Fixpoint replace_char (old new : ascii) (s : string) : string :=
  match s with
  | "" => ""
  | String c r =>
      String (if Ascii.eqb c old then new else c) (replace_char old new r)
  end.

(** [s.replace(old, new)] for a non-empty [old]: occurrences are replaced
    left to right without overlap.  The fuel bounds the number of
    characters still to scan. *)
Fixpoint replace_go (fuel : nat) (old new s : string) : string :=
  match fuel with
  | 0 => s
  | S fuel' =>
      if startswith old s
      then new +:+ replace_go fuel' old new (str_drop (len old) s)
      else match s with
           | "" => ""
           | String c r => String c (replace_go fuel' old new r)
           end
  end.

Definition replace (old new s : string) : string :=
  replace_go (S (len s)) old new s.

(** [a or b] on a cell that may be [None]: the first truthy operand. *)
Definition or_else (a : option string) (b : string) : string :=
  match a with
  | Some s => if String.eqb s "" then b else s
  | None => b
  end.

(** [str(i)] for a non-negative integer. *)
Definition str_of_nat (i : nat) : string := pretty (N.of_nat i).

(** A [dict] that remembers insertion order: [d[k] = v] overwrites the
    value of a key already present where it stands, and appends a new
    key. *)
Fixpoint odict_set (k v : string) (d : list (string * string))
  : list (string * string) :=
  match d with
  | [] => [(k, v)]
  | (k', v') :: r =>
      if String.eqb k' k then (k', v) :: r else (k', v') :: odict_set k v r
  end.

(** [d.get(k)] *)
Fixpoint odict_get (k : string) (d : list (string * string)) : option string :=
  match d with
  | [] => None
  | (k', v') :: r => if String.eqb k' k then Some v' else odict_get k r
  end.

(** The first result of a loop that returns from its body. *)
Fixpoint first_some {A B : Type} (f : A → option B) (l : list A) : option B :=
  match l with
  | [] => None
  | x :: r => match f x with Some y => Some y | None => first_some f r end
  end.

(** [x in (a, b, ...)] *)
Definition in_tuple (x : string) (t : list string) : bool :=
  existsb (String.eqb x) t.

(** Truthiness of a [str]. *)
Definition truthy (s : string) : bool := negb (String.eqb s "").

(** [os.path.basename] on a POSIX path. *)
Definition basename (path : string) : string :=
  match rsplit1 "/" path with
  | [_; b] => b
  | _ => path
  end.

(** Some character of [s] is not a blank. *)
Fixpoint inked (s : string) : bool :=
  match s with
  | "" => false
  | String c r => negb (isspace c) || inked r
  end.

(** [sub] occurs in [s]: the meaning of [sub in s]. *)
Definition substring_of (sub s : string) : Prop :=
  ∃ pre post, s = pre +:+ sub +:+ post.

End Py.


(** ** [app/error_parser.py] *)

Module ErrorParser.
Import Py.

Record ParsedError := {
  type : string;
  value : string;
  reason : string;
  original_error : string;
  row_type : string;
}.

Record ParseResult := {
  errors : list ParsedError;
  total_rows : nat;
  error_rows : nat;
  success_rows : nat;
  filename : string;
  keywords : list ParsedError;
  headlines : list ParsedError;
  descriptions : list ParsedError;
  other_errors : list ParsedError;
}.

Definition ERROR_INDICATORS : list string :=
  ["error"; "rejected"; "disapproved"; "policy violation";
   "not eligible"; "violation"; "invalid"; "too long";
   "restricted"; "trademark"; "misleading"; "unacceptable";
   "failed"; "couldn't"; "couldn't create"; "not allowed";
   "limit exceeded"; "character limit"; "exceeds"].

Definition SUCCESS_INDICATORS : list string :=
  ["successfully"; "success"; "created"; "added"; "updated";
   "approved"; "eligible"; "active"; "enabled"].

Definition _normalize_header (header : string) : string :=
  replace_char "-" "_" (replace_char " " "_" (lower (strip header))).

(** The [priority] list of [_find_error_column]. *)
Definition priority : list string :=
  ["results"; "result"; "error"; "error_details";
   "comment"; "validation_error"; "policy"; "status"].

(** The words of the fallback loop of [_find_error_column]. *)
Definition fallback_words : list string :=
  ["error"; "result"; "comment"; "policy"; "validation"].

(** [{_normalize_header(h): h for h in headers}] *)
Definition normalized_headers (headers : list string) : list (string * string) :=
  foldl (λ d h, odict_set (_normalize_header h) h d) [] headers.

Definition _find_error_column (headers : list string) : option string :=
  let normalized := normalized_headers headers in
  match first_some (λ key, odict_get key normalized) priority with
  | Some orig => Some orig
  | None =>
      first_some
        (λ '(norm, orig), if any_in fallback_words norm then Some orig else None)
        normalized
  end.

(** The inner list of the success test of [_is_error_row]. *)
Definition hard_failures : list string :=
  ["error"; "rejected"; "disapproved"; "violation"].

Definition _is_error_row (error_text : string) : bool :=
  let text_lower := lower error_text in
  if existsb
       (λ s, str_in s text_lower && negb (any_in hard_failures text_lower))
       SUCCESS_INDICATORS
  then false
  else if existsb (λ e, str_in e text_lower) ERROR_INDICATORS
  then true
  else 0 <? len (strip text_lower).

Definition _extract_reason (error_text : string) : string :=
  let text := strip error_text in
  let text :=
    if str_in ": " text then
      match split1 ": " text !! 1 with
      | Some part => if 10 <? len part then part else text
      | None => text
      end
    else text in
  if 200 <? len text then str_take 200 text +:+ "..." else text.

(** The word list of [is_general] in both field extractors. *)
Definition general_words : list string :=
  ["policy"; "trademark"; "misleading"; "restricted";
   "disapproved"; "rejected"].

(** The common loop of [_extract_headline_errors] ("Headline", "headline",
    15 columns) and [_extract_description_errors] ("Description",
    "description", 4 columns). *)
Definition extract_field_errors (Col kind : string) (n : nat)
    (row : gmap string string) (error_text : string) : list ParsedError :=
  let error_lower := lower error_text in
  let reason := _extract_reason error_text in
  flat_map
    (λ i,
       let col := Col +:+ " " +:+ str_of_nat i in
       let val := strip (or_else (row !! col) "") in
       if negb (truthy val) then []
       else
         let is_specific :=
           str_in (lower val) error_lower
           || str_in (kind +:+ " " +:+ str_of_nat i) error_lower in
         let is_general := any_in general_words error_lower in
         if is_specific || is_general
         then [ {| type := kind; value := val; reason := reason;
                   original_error := error_text;
                   row_type := "Responsive search ad" |} ]
         else [])
    (seq 1 n).

Definition _extract_headline_errors :=
  extract_field_errors "Headline" "headline" 15.

Definition _extract_description_errors :=
  extract_field_errors "Description" "description" 4.

(** The branch on the row type in the loop of [parse_error_csv]: the
    records a failure row appends to [all_errors]. *)
Definition row_errors (row : gmap string string) (error_text : string)
  : list ParsedError :=
  let row_type :=
    strip (or_else (row !! "Row Type")
            (or_else (row !! "row type")
              (or_else (row !! "Type")
                (or_else (row !! "type") "")))) in
  let reason := _extract_reason error_text in
  if in_tuple (lower row_type) ["keyword"; "keywords"] then
    let kw := strip (or_else (row !! "Keyword") (or_else (row !! "keyword") "")) in
    if truthy kw
    then [ {| type := "keyword"; value := kw; reason := reason;
              original_error := error_text; row_type := row_type |} ]
    else []
  else if in_tuple (lower row_type) ["responsive search ad"; "ad"; "text ad"] then
    let hs := _extract_headline_errors row error_text in
    let ds := _extract_description_errors row error_text in
    hs ++ ds ++
    match hs, ds with
    | [], [] =>
        [ {| type := "ad"; value := "[" +:+ row_type +:+ "] Ad error";
             reason := reason; original_error := error_text;
             row_type := row_type |} ]
    | _, _ => []
    end
  else if in_tuple (lower row_type) ["campaign"] then
    [ {| type := "campaign";
         value := or_else (row !! "Campaign") "Unknown campaign";
         reason := reason; original_error := error_text;
         row_type := row_type |} ]
  else if in_tuple (lower row_type) ["ad group"; "ad_group"] then
    [ {| type := "ad_group";
         value := or_else (row !! "Ad group") "Unknown ad group";
         reason := reason; original_error := error_text;
         row_type := row_type |} ]
  else
    let kw := strip (or_else (row !! "Keyword") (or_else (row !! "keyword") "")) in
    if truthy kw
    then [ {| type := "keyword"; value := kw; reason := reason;
              original_error := error_text;
              row_type := or_else (Some row_type) "Unknown" |} ]
    else [ {| type := "other"; value := str_take 100 error_text;
              reason := reason; original_error := error_text;
              row_type := or_else (Some row_type) "Unknown" |} ].

(** The variables the row loop of [parse_error_csv] updates. *)
Record Loop := {
  all_errors : list ParsedError;
  n_total : nat;
  n_error : nat;
  n_success : nat;
}.

(** The error text of a row: empty unless an error column was found. *)
Definition row_error_text (error_col : option string)
    (row : gmap string string) : string :=
  match error_col with
  | Some col => if truthy col then strip (or_else (row !! col) "") else ""
  | None => ""
  end.

(** One iteration of the row loop. *)
Definition process_row (error_col : option string) (has_row_type : bool)
    (st : Loop) (row : gmap string string) : Loop :=
  let total := S (n_total st) in
  let succeeded :=
    {| all_errors := all_errors st; n_total := total;
       n_error := n_error st; n_success := S (n_success st) |} in
  let error_text := row_error_text error_col row in
  if negb (truthy error_text) && negb has_row_type then succeeded
  else if truthy error_text && negb (_is_error_row error_text) then succeeded
  else if negb (truthy error_text) then succeeded
  else
    {| all_errors := all_errors st ++ row_errors row error_text;
       n_total := total;
       n_error := S (n_error st);
       n_success := n_success st |}.

(** What [csv.DictReader] yields for a file under the detected delimiter:
    the header ([[]] when the file has none) and the data rows. *)
Record CsvFile := {
  fieldnames : list string;
  rows : list (gmap string string);
}.

(** The files that exist, by path. *)
Definition FileSystem := string → option CsvFile.

(** The exception [parse_error_csv] raises, with the path it names. *)
Inductive Exception :=
  | FileNotFoundError (path : string).

Definition parse_error_csv (fs : FileSystem) (filepath : string)
  : Exception + ParseResult :=
  match fs filepath with
  | None => inl (FileNotFoundError filepath)
  | Some f =>
      let headers := fieldnames f in
      let error_col := _find_error_column headers in
      let has_row_type :=
        existsb (λ h, String.eqb (_normalize_header h) "row_type") headers in
      let st :=
        foldl (process_row error_col has_row_type)
          {| all_errors := []; n_total := 0; n_error := 0; n_success := 0 |}
          (rows f) in
      let is_type t := λ e : ParsedError, String.eqb (type e) t in
      inr {| errors := all_errors st;
             total_rows := n_total st;
             error_rows := n_error st;
             success_rows := n_success st;
             filename := basename filepath;
             keywords := List.filter (is_type "keyword") (all_errors st);
             headlines := List.filter (is_type "headline") (all_errors st);
             descriptions := List.filter (is_type "description") (all_errors st);
             other_errors :=
               List.filter
                 (λ e, negb (in_tuple (type e)
                               ["keyword"; "headline"; "description"]))
                 (all_errors st) |}
  end.

(** The loop state of [errors_to_submission]. *)
Record Batch := {
  submissions : list (gmap string string);
  seen : gset (string * string);
}.

(** The dict appended for an error that is kept. *)
Definition submission (action : string) (error : ParsedError)
  : gmap string string :=
  {[ "type" := type error;
     "value" := value error;
     "reason" := "Google Ads: " +:+ reason error;
     "original_error" := str_take 500 (original_error error);
     "action" := action ]}.

(** One iteration of the loop of [errors_to_submission]. *)
Definition submit_step (action : string) (b : Batch) (error : ParsedError)
  : Batch :=
  if negb (in_tuple (type error) ["keyword"; "headline"; "description"])
  then b
  else
    let key := (type error, lower (value error)) in
    if decide (key ∈ seen b) then b
    else {| submissions := submissions b ++ [submission action error];
            seen := {[ key ]} ∪ seen b |}.

Definition errors_to_submission (parsed : ParseResult) (action : string)
  : list (gmap string string) :=
  submissions
    (foldl (submit_step action) {| submissions := []; seen := ∅ |}
       (errors parsed)).

End ErrorParser.

(** ** [app/generator.py] *)

Module Generator.
Import Py.

(** The inner loop of [filter_keywords]: some lowercased denied term
    occurs in the lowercased, stripped keyword, or the other way round. *)
Definition is_banned (banned_lower : list string) (kw : string) : bool :=
  let kw_lower := strip (lower kw) in
  existsb (λ b, str_in b kw_lower || str_in kw_lower b) banned_lower.

Definition filter_keywords (keywords banned : list string)
  : list string * list string :=
  let banned_lower := lower <$> banned in
  foldl
    (λ '(filtered, removed) kw,
       if is_banned banned_lower kw
       then (filtered, removed ++ [kw])
       else (filtered ++ [kw], removed))
    ([], []) keywords.

(** [h[:limit].rsplit(' ', 1)[0]] when [h] is longer than [limit]: the
    truncation shared by [validate_headlines] and
    [validate_descriptions]. *)
Definition cut_at_word (limit : nat) (h : string) : string :=
  if limit <? len h then
    match rsplit1 " " (str_take limit h) with
    | x :: _ => x
    | [] => ""
    end
  else h.

Definition forbidden : list string :=
  ["best"; "cheap"; "free"; "#1"; "guaranteed"].

(** The loop state of [validate_headlines]. *)
Record Validation := {
  validated : list string;
  seen : gset string;
}.

(** One iteration of the loop of [validate_headlines]. *)
Definition validate_step (st : Validation) (h : string) : Validation :=
  let h := cut_at_word 30 (strip h) in
  let h_lower := lower h in
  if decide (h_lower ∈ seen st) then st
  else
    let seen' := {[ h_lower ]} ∪ seen st in
    let has_banned := any_in forbidden h_lower in
    if negb has_banned && (5 <=? len h)
    then {| validated := validated st ++ [h]; seen := seen' |}
    else {| validated := validated st; seen := seen' |}.

Definition validate_headlines (headlines : list string) : list string :=
  take 8 (validated (foldl validate_step {| validated := []; seen := ∅ |} headlines)).

Definition validate_descriptions (descriptions : list string) : list string :=
  take 2
    (foldl
       (λ validated d,
          let d := cut_at_word 90 (strip d) in
          if 20 <=? len d then validated ++ [d] else validated)
       [] descriptions).

(** The content dict once filtered, validated and backfilled. *)
Record Content := {
  keywords : list string;
  headlines : list string;
  descriptions : list string;
}.

(** [config.get(key, default)] *)
Definition config_get (config : gmap string string) (key default : string)
  : string :=
  match config !! key with
  | Some v => v
  | None => default
  end.

(** [enumerate(l, 1)] *)
Definition enumerate1 {A : Type} (l : list A) : list (nat * A) :=
  zip (seq 1 (length l)) l.

(** The row-building part of [generate_csv]: the list [rows] handed to
    the CSV writer.  The two dates, computed from the clock, are
    arguments. *)
Definition generate_csv_rows (website_url business_name : string)
    (config : gmap string string) (start_date end_date : string)
    (content : Content) : list (gmap string string) :=
  let budget := config_get config "budget" "10" in
  let bid_strategy := config_get config "bid_strategy" "Maximize Conversions" in
  let networks := config_get config "networks" "Google Search" in
  let location := config_get config "target_country" "United States" in
  let language := config_get config "target_language" "en" in
  let eu_political := config_get config "eu_political_ads" "No" in
  let match_type_raw := config_get config "keyword_match_type" "Broad match" in
  let match_type := replace " Match" "" (replace " match" "" match_type_raw) in
  let campaign_name := business_name +:+ " - Search Campaign" in
  let ad_group_name := business_name +:+ " - Main" in
  let campaign_row : gmap string string :=
    {[ "Campaign" := campaign_name;
       "Campaign status" := "Enabled";
       "Campaign type" := "Search";
       "Networks" := networks;
       "Budget" := budget;
       "Bid strategy type" := bid_strategy;
       "Start date" := start_date;
       "End date" := end_date;
       "Location" := location;
       "Language" := language;
       "EU political ads" := eu_political ]} in
  let ad_group_row : gmap string string :=
    {[ "Campaign" := campaign_name;
       "Ad group" := ad_group_name;
       "Ad group status" := "Enabled" ]} in
  let keyword_row (kw : string) : gmap string string :=
    {[ "Campaign" := campaign_name;
       "Ad group" := ad_group_name;
       "Keyword" := kw;
       "Keyword match type" := match_type ]} in
  let final_url :=
    if startswith "http" website_url then website_url
    else "https://" +:+ website_url in
  let ad_row : gmap string string :=
    {[ "Campaign" := campaign_name;
       "Ad group" := ad_group_name;
       "Ad type" := "Responsive search ad";
       "Ad status" := "Enabled";
       "Final URL" := final_url ]} in
  let ad_row :=
    foldl (λ r '(i, h), <["Headline " +:+ str_of_nat i := str_take 30 h]> r)
      ad_row (enumerate1 (take 8 (headlines content))) in
  let ad_row :=
    foldl (λ r '(i, d), <["Description " +:+ str_of_nat i := str_take 90 d]> r)
      ad_row (enumerate1 (take 2 (descriptions content))) in
  [campaign_row; ad_group_row]
  ++ (keyword_row <$> take 10 (keywords content))
  ++ [ad_row].

End Generator.

(** ** Vocabulary of the properties *)

Module Props.
Import Py ErrorParser.

(** The loop of [parse_error_csv] takes the row for a failure: its error
    text is not empty and [_is_error_row] accepts it. *)
Definition row_fails (error_col : option string) (row : gmap string string)
  : bool :=
  let error_text := row_error_text error_col row in
  truthy error_text && _is_error_row error_text.

(** The records the loop appends for a row. *)
Definition row_records (error_col : option string) (row : gmap string string)
  : list ParsedError :=
  if row_fails error_col row
  then row_errors row (row_error_text error_col row)
  else [].

(** The step from [st] to [st'] counted one success and no failure. *)
Definition counted_success (st st' : Loop) : Prop :=
  n_success st' = S (n_success st) ∧ n_error st' = n_error st
  ∧ all_errors st' = all_errors st.

(** The step from [st] to [st'] counted one failure and no success. *)
Definition counted_failure (st st' : Loop) : Prop :=
  n_error st' = S (n_error st) ∧ n_success st' = n_success st.

(** The success test of [_is_error_row] on lowercased text: a success
    indicator occurs and no hard-failure word does. *)
Definition success_signal (low : string) : bool :=
  any_in SUCCESS_INDICATORS low && negb (any_in hard_failures low).

(** Reading of the specification: an existing file whose header resolves
    to no error column makes [parse_error_csv] raise. *)
Definition raises_without_error_column (fs : FileSystem) (filepath : string)
  : Prop :=
  ∀ f, fs filepath = Some f → _find_error_column (fieldnames f) = None →
       ∃ e, parse_error_csv fs filepath = inl e.

(** Some header has the normalized form [key]. *)
Definition exact_match (headers : list string) (key : string) : Prop :=
  ∃ h, h ∈ headers ∧ _normalize_header h = key.

(** Reading of the specification: when no header matches a priority word
    exactly but the normalized form of some header contains one, the
    resolver returns such a header. *)
Definition resolves_by_priority_substring (headers : list string) : Prop :=
  (∀ key, key ∈ priority → ¬ exact_match headers key) →
  (∃ h, h ∈ headers ∧ any_in priority (_normalize_header h) = true) →
  ∃ h, _find_error_column headers = Some h ∧ h ∈ headers
       ∧ any_in priority (_normalize_header h) = true.

(** The kinds [errors_to_submission] lets through. *)
Definition eligible (e : ParsedError) : bool :=
  in_tuple (type e) ["keyword"; "headline"; "description"].

(** The deduplication key of [errors_to_submission]. *)
Definition dedup_key (e : ParsedError) : string * string :=
  (type e, lower (value e)).

(** Reading of the specification, "first occurrence wins, insertion order
    preserved": an element stays, and the later elements with its key
    go. *)
Fixpoint first_occurrences {A K : Type} `{EqDecision K}
    (key : A → K) (l : list A) : list A :=
  match l with
  | [] => []
  | x :: r => x :: filter (λ y, key y ≠ key x) (first_occurrences key r)
  end.

(** The keyword and the denied term, compared as [filter_keywords]
    compares them: one occurs in the other, the keyword lowercased and
    stripped, the denied term lowercased. *)
Definition ban_hits (b kw : string) : Prop :=
  substring_of (lower b) (strip (lower kw))
  ∨ substring_of (strip (lower kw)) (lower b).

(** Reading of the specification: a keyword is removed exactly when,
    case-insensitively, it contains a denied term or a denied term
    contains it. *)
Definition removes_iff_contains (keywords banned : list string) : Prop :=
  ∀ kw, kw ∈ keywords →
    (kw ∈ (Generator.filter_keywords keywords banned).2 ↔
     ∃ b, b ∈ banned ∧ (substring_of (lower b) (lower kw)
                        ∨ substring_of (lower kw) (lower b))).

End Props.

(** ** Sample inputs *)

Module Samples.
Import Py ErrorParser.

Definition results_header : list string :=
  ["Row Type"; "Keyword"; "Campaign"; "Headline 1"; "Headline 2"; "Results"].

Definition created_row : gmap string string :=
  {[ "Row Type" := "Campaign"; "Campaign" := "Spring";
     "Results" := "Successfully created" ]}.

Definition keyword_row : gmap string string :=
  {[ "Row Type" := "Keyword"; "Keyword" := "gym";
     "Results" := "Policy violation" ]}.

Definition blank_keyword_row : gmap string string :=
  {[ "Row Type" := "Keyword"; "Keyword" := ""; "Results" := "Rejected" ]}.

Definition ad_row : gmap string string :=
  {[ "Row Type" := "Responsive search ad";
     "Headline 1" := "Nike Shoes"; "Headline 2" := "Great Deals";
     "Results" := "Policy violation: trademark" ]}.

Definition note_row : gmap string string :=
  {[ "Row Type" := "Keyword"; "Keyword" := "spin class";
     "Results" := "See account notes" ]}.

Definition one_file (path : string) (f : CsvFile) : FileSystem :=
  λ p, if String.eqb p path then Some f else None.

(** Three rows: one accepted, one rejected keyword, one rejected ad. *)
Definition upload_fs : FileSystem :=
  one_file "/tmp/upload.csv"
    {| fieldnames := results_header;
       rows := [created_row; keyword_row; ad_row] |}.

(** A failure row of type "Keyword" whose keyword cell is empty. *)
Definition blank_keyword_fs : FileSystem :=
  one_file "/tmp/blank.csv"
    {| fieldnames := results_header; rows := [blank_keyword_row] |}.

(** One failure row of type "Responsive search ad". *)
Definition ad_fs : FileSystem :=
  one_file "/tmp/ad.csv"
    {| fieldnames := results_header; rows := [ad_row] |}.

(** A file written by the generator: no column holds results. *)
Definition plain_fs : FileSystem :=
  one_file "/tmp/plain.csv"
    {| fieldnames := ["Campaign"; "Ad group"; "Keyword"];
       rows := [ {[ "Campaign" := "Spring"; "Keyword" := "gym" ]} ] |}.

Definition rejected (kind val : string) : ParsedError :=
  {| type := kind; value := val; reason := "Trademark in text";
     original_error := "Disapproved: Trademark in text";
     row_type := "Keyword" |}.

(** A report whose errors are keyword "Gym", keyword "gym" and headline
    "Join Now". *)
Definition gym_report : ParseResult :=
  let es := [rejected "keyword" "Gym"; rejected "keyword" "gym";
             rejected "headline" "Join Now"] in
  {| errors := es; total_rows := 3; error_rows := 3; success_rows := 0;
     filename := "gym.csv";
     keywords := [rejected "keyword" "Gym"; rejected "keyword" "gym"];
     headlines := [rejected "headline" "Join Now"];
     descriptions := []; other_errors := [] |}.

(** A rejection text of 209 characters without a colon. *)
Definition long_text : string :=
  strip (String.concat "" (replicate 15 "exceeds limit ")).

(** One rejected keyword row that carries [long_text]. *)
Definition long_fs : FileSystem :=
  one_file "/tmp/long.csv"
    {| fieldnames := results_header;
       rows := [ {[ "Row Type" := "Keyword"; "Keyword" := "gym";
                    "Results" := long_text ]} ] |}.

(** Validated content with two keywords and three headlines. *)
Definition studio_content : Generator.Content :=
  {| Generator.keywords := ["yoga studio dc"; "pilates classes"];
     Generator.headlines :=
       ["Join Flow Studio Today"; "Start Your Fitness Journey";
        "Transform Your Body Now"];
     Generator.descriptions :=
       ["Join Flow Studio. Expert trainers & flexible memberships.";
        "Transform your fitness with our community. Group training."] |}.

(** The rows assembled for a site, with an empty configuration. *)
Definition studio_rows (website_url : string) : list (gmap string string) :=
  Generator.generate_csv_rows website_url "Flow Studio" ∅
    "2026-11-04" "2026-11-11" studio_content.

End Samples.

(** ** The rest of [app/error_parser.py] and its callers *)

Module ErrorParserRest.
Import Py ErrorParser.

(** [s.count(c)] for a one-character [c]. *)
Fixpoint count_char (c : ascii) (s : string) : nat :=
  match s with
  | "" => 0
  | String a r => (if Ascii.eqb a c then 1 else 0) + count_char c r
  end.

(** [_detect_delimiter], on the text of the file: the sample is what
    [f.read(2048)] returns. *)
Definition _detect_delimiter (content : string) : ascii :=
  let sample := str_take 2048 content in
  let commas := count_char "," sample in
  let semicolons := count_char ";" sample in
  let tabs := count_char "009" sample in
  if (commas <? tabs) && (semicolons <? tabs) then "009"%char
  else if commas <? semicolons then ";"%char
  else ","%char.

(** [total_to_ban] of [format_summary] and of the two callers in
    [app/gui.py] ([_on_csv_parsed], [_submit_ad_errors]): the number of
    items announced as ready to send. *)
Definition total_to_ban (parsed : ParseResult) : nat :=
  length (keywords parsed) + length (headlines parsed)
  + length (descriptions parsed).

(** [_on_csv_parsed] enables the submit button when this holds. *)
Definition submit_enabled (parsed : ParseResult) : bool :=
  0 <? total_to_ban parsed.

(** The cell of a numbered column as both field extractors read it. *)
Definition numbered_cell (Col : string) (row : gmap string string) (i : nat)
  : string :=
  strip (or_else (row !! (Col +:+ " " +:+ str_of_nat i)) "").

(** The keyword cell as the row loop reads it. *)
Definition keyword_cell (row : gmap string string) : string :=
  strip (or_else (row !! "Keyword") (or_else (row !! "keyword") "")).

(** The declared row type as the row loop reads it. *)
Definition declared_row_type (row : gmap string string) : string :=
  strip (or_else (row !! "Row Type")
          (or_else (row !! "row type")
            (or_else (row !! "Type")
              (or_else (row !! "type") "")))).

(** The seven values the field [type] of a record can take. *)
Definition record_types : list string :=
  ["keyword"; "headline"; "description"; "ad"; "campaign"; "ad_group";
   "other"].

End ErrorParserRest.

(** ** The rest of [app/generator.py] *)

Module GeneratorRest.
Import Py Generator.

(** [s.split(sep)[0]]: the text before the first [sep]. *)
Definition split_head (sep s : string) : string :=
  match split1 sep s with
  | x :: _ => x
  | [] => s
  end.

Definition filter_by_domains (url : string) (banned_domains : list string)
  : bool :=
  let clean :=
    replace "www." "" (replace "http://" "" (replace "https://" "" (lower url))) in
  let domain := split_head "/" clean in
  existsb (λ bd, str_in (lower bd) domain || str_in domain (lower bd))
    banned_domains.

(** [short_name] of [generate_csv]. *)
Definition short_name (business_name : string) : string :=
  if 30 <? len business_name then str_take 27 business_name +:+ "..."
  else business_name.

(** The default headlines of [generate_csv], used when fewer than three
    are left. *)
Definition backfill_headlines (business_name : string)
    (headlines : list string) : list string :=
  if length headlines <? 3 then
    ["Join " +:+ short_name business_name +:+ " Today";
     "Start Your Fitness Journey";
     "Transform Your Body Now"]
  else headlines.

(** The default descriptions of [generate_csv], used when fewer than two
    are left. *)
Definition backfill_descriptions (business_name : string)
    (descriptions : list string) : list string :=
  if length descriptions <? 2 then
    ["Join " +:+ business_name
       +:+ ". Expert trainers & flexible memberships. Start today!";
     "Transform your fitness with our community. Personal & group training available."]
  else descriptions.

(** The keywords [generate_csv] adds when fewer than five are left. *)
Definition default_keywords (business_name : string) : list string :=
  [business_name +:+ " membership";
   "fitness classes DC";
   "gym membership DC";
   "personal training near me";
   "workout classes DC"].

(** [list(set(l))]: the elements of [l] without repeats, in an order the
    language does not fix. *)
Definition set_listing (l out : list string) : Prop :=
  NoDup out ∧ ∀ x, x ∈ out ↔ x ∈ l.

(** The keyword backfill of [generate_csv]: [out] is a value
    [content["keywords"]] can have after it. *)
Definition backfill_keywords (business_name : string)
    (keywords out : list string) : Prop :=
  if length keywords <? 5 then
    ∃ listing,
      set_listing (keywords ++ default_keywords business_name) listing
      ∧ out = take 10 listing
  else out = keywords.

(** [c.isalnum()] on ASCII. *)
Definition isalnum (c : ascii) : bool :=
  let n := nat_of_ascii c in
  ((48 <=? n) && (n <=? 57)) || ((65 <=? n) && (n <=? 90))
  || ((97 <=? n) && (n <=? 122)).

(** [safe_name] of [generate_csv]. *)
Fixpoint safe_name (business_name : string) : string :=
  match business_name with
  | "" => ""
  | String c r => String (if isalnum c then c else "_"%char) (safe_name r)
  end.

(** [filename] of [generate_csv]; the timestamp comes from the clock. *)
Definition csv_filename (business_name timestamp : string) : string :=
  "ads_" +:+ safe_name business_name +:+ "_" +:+ timestamp +:+ ".csv".

(** The [priority] list of the column order of [generate_csv]. *)
Definition priority_columns : list string :=
  ["Campaign"; "Campaign status"; "Campaign type";
   "Networks"; "Budget"; "Bid strategy type";
   "Start date"; "End date"; "Location"; "Language";
   "EU political ads";
   "Ad group"; "Ad group status";
   "Keyword"; "Keyword match type";
   "Ad type"; "Ad status"; "Final URL"]
  ++ ((λ i, "Headline " +:+ str_of_nat i) <$> seq 1 15)
  ++ ((λ i, "Description " +:+ str_of_nat i) <$> seq 1 4).

(** [columns] of [generate_csv]: the field names handed to
    [csv.DictWriter]. *)
Definition csv_columns (rows : list (gmap string string)) : list string :=
  let all_columns : gset string := ⋃ (dom <$> rows) in
  let columns := filter (λ c, c ∈ all_columns) priority_columns in
  columns
  ++ merge_sort String.le (elements (all_columns ∖ list_to_set columns)).

End GeneratorRest.

(** ** More sample inputs *)

Module SamplesRest.
Import Py ErrorParser Samples.

(** The rows of [upload_fs] as one file and as two files with the same
    header. *)
Definition split_fs : FileSystem :=
  λ p, if String.eqb p "/tmp/first.csv"
       then Some {| fieldnames := results_header; rows := [created_row] |}
       else if String.eqb p "/tmp/second.csv"
       then Some {| fieldnames := results_header;
                    rows := [keyword_row; ad_row] |}
       else if String.eqb p "/tmp/whole.csv"
       then Some {| fieldnames := results_header;
                    rows := [created_row] ++ [keyword_row; ad_row] |}
       else None.

(** The file [generate_csv] writes for the studio, as [csv.DictReader]
    yields it back: every column in every row, the cells a row lacks
    empty. *)
Definition studio_file : CsvFile :=
  let written := studio_rows "flowstudio.example" in
  let columns := GeneratorRest.csv_columns written in
  {| fieldnames := columns;
     rows :=
       (λ row : gmap string string,
          list_to_map ((λ c, (c, or_else (row !! c) "")) <$> columns))
       <$> written |}.

Definition studio_fs : FileSystem :=
  λ p, if String.eqb p "/out/ads_Flow_Studio_20261104_101500.csv"
       then Some studio_file else None.

End SamplesRest.

(** * Facts about the string primitives *)

Section StringFacts.
Import Py.

Example lower_mixed : lower "Hot YOGA-Studio 9" = "hot yoga-studio 9".
Proof. reflexivity. Qed.

Example strip_both : strip "  Join  Now  " = "Join  Now".
Proof. reflexivity. Qed.

Example split1_first : split1 ": " "a: b: c" = ["a"; "b: c"].
Proof. reflexivity. Qed.

Example split1_none : split1 ": " "abc" = ["abc"].
Proof. reflexivity. Qed.

Example rsplit1_last : rsplit1 " " "a b c" = ["a b"; "c"].
Proof. reflexivity. Qed.

Example rsplit1_none : rsplit1 " " "abc" = ["abc"].
Proof. reflexivity. Qed.

Example replace_all : replace " match" "" "Broad match match" = "Broad".
Proof. reflexivity. Qed.

Example str_in_middle : str_in "yoga" "hot yoga class" = true.
Proof. reflexivity. Qed.

Example headline_column : "Headline " +:+ str_of_nat 15 = "Headline 15".
Proof. reflexivity. Qed.

Example basename_posix : basename "/tmp/out/upload.csv" = "upload.csv".
Proof. reflexivity. Qed.

Lemma app_empty_l (s : string) : "" +:+ s = s.
Proof. reflexivity. Qed.

Lemma app_String (c : ascii) (s t : string) :
  String c s +:+ t = String c (s +:+ t).
Proof. reflexivity. Qed.

Lemma len_app (s t : string) : len (s +:+ t) = len s + len t.
Proof.
  induction s as [|c s IH]; [reflexivity|].
  rewrite app_String. simpl. by rewrite IH.
Qed.

Lemma len_str_take (n : nat) (s : string) :
  len (str_take n s) = n `min` len s.
Proof.
  revert s. induction n as [|n IH]; intros [|c s]; simpl; try reflexivity.
  by rewrite IH.
Qed.

Lemma len_str_take_le (n : nat) (s : string) : len (str_take n s) ≤ n.
Proof. rewrite len_str_take. lia. Qed.

Lemma str_take_all (n : nat) (s : string) : len s ≤ n → str_take n s = s.
Proof.
  revert s. induction n as [|n IH]; intros [|c s] H; simpl in *;
    try reflexivity; try lia.
  f_equal. apply IH. lia.
Qed.

Lemma startswith_spec (p s : string) :
  startswith p s = true ↔ ∃ post, s = p +:+ post.
Proof.
  revert s. induction p as [|a p IH]; intros s; simpl.
  - split; [intros _; by exists s | done].
  - destruct s as [|b s].
    + split; [done | intros [post H]; discriminate H].
    + rewrite andb_true_iff, IH. split.
      * intros [Hab [post ->]]. apply Ascii.eqb_eq in Hab as ->.
        by exists post.
      * intros [post H]. rewrite app_String in H. injection H as -> ->.
        split; [apply Ascii.eqb_refl | by exists post].
Qed.

Lemma str_in_spec (sub s : string) :
  str_in sub s = true ↔ substring_of sub s.
Proof.
  unfold substring_of. split.
  - induction s as [|c s IH]; simpl; rewrite orb_true_iff.
    + intros [H|H]; [|done]. apply startswith_spec in H as [post ->].
      by exists "", post.
    + intros [H|H].
      * apply startswith_spec in H as [post ->]. by exists "", post.
      * destruct (IH H) as (pre & post & ->). by exists (String c pre), post.
  - intros (pre & post & ->). induction pre as [|c pre IH].
    + rewrite app_empty_l.
      assert (startswith sub (sub +:+ post) = true) as H
        by (apply startswith_spec; by exists post).
      destruct (sub +:+ post); simpl; by rewrite H.
    + rewrite app_String. simpl. rewrite IH. apply orb_true_r.
Qed.

Lemma len_str_drop (n : nat) (s : string) :
  len (str_drop n s) = len s - n.
Proof.
  revert s. induction n as [|n IH]; intros [|c s]; simpl; done.
Qed.

Lemma str_drop_app (s t : string) : str_drop (len s) (s +:+ t) = t.
Proof. induction s as [|c s IH]; [done|]. by rewrite app_String. Qed.

(** When the separator occurs, [split1] returns the two parts around its
    first occurrence, so indexing the result at 1 cannot fail. *)
Lemma split1_found (sep s : string) :
  str_in sep s = true →
  ∃ a b, split1 sep s = [a; b] ∧ s = a +:+ sep +:+ b.
Proof.
  induction s as [|c s IH]; intros Hin.
  - simpl in *. rewrite orb_false_r in Hin. rewrite Hin.
    apply startswith_spec in Hin as [post E].
    destruct sep; [|discriminate E]. rewrite app_empty_l in E. subst post.
    by exists "", "".
  - cbn [split1 str_in] in *.
    destruct (startswith sep (String c s)) eqn:E.
    + apply startswith_spec in E as [post E]. exists "", post.
      by rewrite E, str_drop_app.
    + destruct (IH Hin) as (a & b & -> & ->). by exists (String c a), b.
Qed.

(** The fuel of [replace] is enough: more fuel gives the same string. *)
Lemma replace_go_fuel (old new : string) (f1 f2 : nat) (s : string) :
  old ≠ "" → len s < f1 → len s < f2 →
  replace_go f1 old new s = replace_go f2 old new s.
Proof.
  intros Hold. revert f2 s.
  induction f1 as [|f1 IH]; intros f2 s H1 H2; [lia|].
  destruct f2 as [|f2]; [lia|]. simpl.
  destruct (startswith old s) eqn:E.
  - f_equal. apply startswith_spec in E as [post ->].
    rewrite len_app in H1, H2. rewrite str_drop_app.
    assert (0 < len old) by (destruct old; [done | simpl; lia]).
    apply IH; lia.
  - destruct s as [|c s]; [done|]. simpl in *. f_equal. apply IH; lia.
Qed.

Lemma lstrip_empty (s : string) : lstrip s = "" ↔ inked s = false.
Proof.
  induction s as [|c s IH]; simpl; [done|].
  destruct (isspace c); simpl; [done|]. split; discriminate.
Qed.

Lemma rstrip_empty (s : string) : rstrip s = "" ↔ inked s = false.
Proof.
  induction s as [|c s IH]; simpl; [done|].
  destruct (rstrip s) eqn:E.
  - destruct IH as [IH _]. rewrite (IH eq_refl), orb_false_r.
    destruct (isspace c); simpl; split; done.
  - split; [discriminate|]. intros [_ H]%orb_false_iff.
    apply IH in H. discriminate H.
Qed.

Lemma inked_lstrip (s : string) : inked (lstrip s) = inked s.
Proof.
  induction s as [|c s IH]; simpl; [done|].
  destruct (isspace c) eqn:E; simpl; [done|]. by rewrite E.
Qed.

Lemma inked_rstrip (s : string) : inked (rstrip s) = inked s.
Proof.
  induction s as [|c s IH]; simpl; [done|].
  destruct (rstrip s) eqn:E.
  - apply rstrip_empty in E. rewrite E, orb_false_r.
    destruct (isspace c) eqn:Ec; simpl; [done|]. by rewrite Ec.
  - simpl in *. by rewrite IH.
Qed.

Lemma strip_empty (s : string) : strip s = "" ↔ inked s = false.
Proof. unfold strip. by rewrite rstrip_empty, inked_lstrip. Qed.

Lemma inked_strip (s : string) : inked (strip s) = inked s.
Proof. unfold strip. by rewrite inked_rstrip, inked_lstrip. Qed.

Lemma isspace_lower_char (c : ascii) : isspace (lower_char c) = isspace c.
Proof. by destruct c as [[] [] [] [] [] [] [] []]. Qed.

Lemma inked_lower (s : string) : inked (lower s) = inked s.
Proof.
  induction s as [|c s IH]; simpl; [done|].
  by rewrite isspace_lower_char, IH.
Qed.

Lemma truthy_true (s : string) : truthy s = true ↔ s ≠ "".
Proof.
  unfold truthy. destruct (String.eqb_spec s ""); simpl; split; done.
Qed.

Lemma len_pos (s : string) : 0 < len s ↔ s ≠ "".
Proof. destruct s; simpl; split; (done || lia). Qed.

(** Stripped text that is not empty stays non-empty through [lower] and a
    second [strip]. *)
Lemma strip_lower_strip (s : string) :
  strip s ≠ "" → 0 < len (strip (lower (strip s))).
Proof.
  intros H. apply len_pos. intros E. apply H.
  apply strip_empty. apply strip_empty in E.
  by rewrite inked_lower, inked_strip in E.
Qed.

End StringFacts.

(** * The row loop of [parse_error_csv] *)

Section RowLoop.
Import Py ErrorParser Props.

Lemma existsb_and_const {A : Type} (f : A → bool) (b : bool) (l : list A) :
  existsb (λ x, f x && b) l = existsb f l && b.
Proof.
  induction l as [|x l IH]; simpl; [done|].
  rewrite IH. by destruct (f x), b, (existsb f l).
Qed.

(** [_is_error_row] as a three-way decision on the lowercased text. *)
Lemma _is_error_row_unfold (error_text : string) :
  _is_error_row error_text =
  let low := lower error_text in
  if success_signal low then false
  else if any_in ERROR_INDICATORS low then true
  else 0 <? len (strip low).
Proof.
  unfold _is_error_row, success_signal. cbv zeta.
  by rewrite (existsb_and_const (λ s, str_in s (lower error_text))).
Qed.

Lemma row_error_text_stripped (error_col : option string)
    (row : gmap string string) :
  row_error_text error_col row = ""
  ∨ ∃ s, row_error_text error_col row = strip s.
Proof.
  unfold row_error_text. destruct error_col as [col|]; [|by left].
  destruct (truthy col); [right; eauto | by left].
Qed.

(** The three tests at the head of the loop body amount to one. *)
Lemma process_row_unfold (error_col : option string) (has_row_type : bool)
    (st : Loop) (row : gmap string string) :
  process_row error_col has_row_type st row =
  if row_fails error_col row
  then {| all_errors :=
            all_errors st ++ row_errors row (row_error_text error_col row);
          n_total := S (n_total st);
          n_error := S (n_error st);
          n_success := n_success st |}
  else {| all_errors := all_errors st;
          n_total := S (n_total st);
          n_error := n_error st;
          n_success := S (n_success st) |}.
Proof.
  unfold process_row, row_fails.
  destruct (truthy (row_error_text error_col row)), has_row_type,
    (_is_error_row (row_error_text error_col row)); reflexivity.
Qed.

Lemma process_row_success (error_col : option string) (has_row_type : bool)
    (st : Loop) (row : gmap string string) :
  row_fails error_col row = false →
  counted_success st (process_row error_col has_row_type st row).
Proof. intros H. rewrite process_row_unfold, H. by repeat split. Qed.

Lemma process_row_failure (error_col : option string) (has_row_type : bool)
    (st : Loop) (row : gmap string string) :
  row_fails error_col row = true →
  counted_failure st (process_row error_col has_row_type st row).
Proof. intros H. rewrite process_row_unfold, H. by split. Qed.

(** Text of blanks only is no error for [_is_error_row]; the loop never
    passes such text, because it strips the cell first. *)
Example blank_text_is_no_error : _is_error_row "   " = false.
Proof. reflexivity. Qed.

(** What the loop has computed after the last row. *)
Lemma loop_result (error_col : option string) (has_row_type : bool)
    (rs : list (gmap string string)) (st : Loop) :
  let st' := foldl (process_row error_col has_row_type) st rs in
  n_total st' = n_total st + length rs
  ∧ n_error st' = n_error st + length (List.filter (row_fails error_col) rs)
  ∧ n_success st' =
      n_success st
      + length (List.filter (λ r, negb (row_fails error_col r)) rs)
  ∧ all_errors st' = all_errors st ++ flat_map (row_records error_col) rs.
Proof.
  revert st. induction rs as [|row rs IH]; intros st; simpl.
  - rewrite app_nil_r. repeat split; lia.
  - destruct (IH (process_row error_col has_row_type st row))
      as (Ht & He & Hs & Ha).
    rewrite Ht, He, Hs, Ha, process_row_unfold. unfold row_records.
    destruct (row_fails error_col row); simpl;
      rewrite <- ?app_assoc; repeat split; lia.
Qed.

Lemma filter_split_length {A : Type} (f : A → bool) (l : list A) :
  length (List.filter f l) + length (List.filter (λ x, negb (f x)) l)
  = length l.
Proof.
  induction l as [|x l IH]; simpl; [done|].
  destruct (f x); simpl; lia.
Qed.

(** The four lists cut from [all_errors] by type share it out. *)
Lemma classification_lengths (l : list ParsedError) :
  length (List.filter (λ e, String.eqb (type e) "keyword") l)
  + length (List.filter (λ e, String.eqb (type e) "headline") l)
  + length (List.filter (λ e, String.eqb (type e) "description") l)
  + length (List.filter
              (λ e, negb (in_tuple (type e)
                            ["keyword"; "headline"; "description"])) l)
  = length l.
Proof.
  unfold in_tuple. induction l as [|e l IH]; simpl in *; [done|].
  destruct (String.eqb_spec (type e) "keyword") as [E1|_],
    (String.eqb_spec (type e) "headline") as [E2|_],
    (String.eqb_spec (type e) "description") as [E3|_];
    simpl; try lia; congruence.
Qed.

End RowLoop.

(** * [parse_error_csv] *)

Section ParseErrorCsv.
Import Py ErrorParser Props Samples.

(** The report of an existing file, field by field. *)
Lemma parse_existing (fs : FileSystem) (filepath : string) (f : CsvFile) :
  fs filepath = Some f →
  ∃ r, parse_error_csv fs filepath = inr r
    ∧ errors r = flat_map (row_records (_find_error_column (fieldnames f))) (rows f)
    ∧ total_rows r = length (rows f)
    ∧ error_rows r =
        length (List.filter (row_fails (_find_error_column (fieldnames f))) (rows f))
    ∧ success_rows r =
        length (List.filter
                  (λ row, negb (row_fails (_find_error_column (fieldnames f)) row))
                  (rows f))
    ∧ keywords r = List.filter (λ e, String.eqb (type e) "keyword") (errors r)
    ∧ headlines r = List.filter (λ e, String.eqb (type e) "headline") (errors r)
    ∧ descriptions r =
        List.filter (λ e, String.eqb (type e) "description") (errors r)
    ∧ other_errors r =
        List.filter
          (λ e, negb (in_tuple (type e) ["keyword"; "headline"; "description"]))
          (errors r).
Proof.
  intros Hf. unfold parse_error_csv. rewrite Hf. eexists. split; [reflexivity|].
  cbv zeta. simpl.
  match goal with
  | |- context [foldl (process_row ?c ?h) ?st ?rs] =>
      destruct (loop_result c h rs st) as (Ht & He & Hs & Ha)
  end.
  rewrite Ht, He, Hs, Ha. simpl. by repeat split.
Qed.

Lemma parse_missing (fs : FileSystem) (filepath : string) :
  fs filepath = None →
  parse_error_csv fs filepath = inl (FileNotFoundError filepath).
Proof. intros H. unfold parse_error_csv. by rewrite H. Qed.

Lemma parse_accepts (fs : FileSystem) (filepath : string) (r : ParseResult) :
  parse_error_csv fs filepath = inr r → ∃ f, fs filepath = Some f.
Proof.
  unfold parse_error_csv. destruct (fs filepath) as [f|]; [eauto | discriminate].
Qed.

(** C1. For every input file accepted by [parse_error_csv], the four lists
    [keywords], [headlines], [descriptions] and [other_errors] of the
    result have together as many elements as [errors], and [total_rows]
    is the sum of [error_rows] and [success_rows]. *)
Theorem parse_partition_complete (fs : FileSystem) (filepath : string)
    (r : ParseResult) :
  parse_error_csv fs filepath = inr r →
  length (keywords r) + length (headlines r) + length (descriptions r)
    + length (other_errors r) = length (errors r)
  ∧ total_rows r = error_rows r + success_rows r.
Proof.
  intros Hr. destruct (parse_accepts _ _ _ Hr) as [f Hf].
  destruct (parse_existing _ _ _ Hf)
    as (r' & Hr' & He & Ht & Hn & Hs & Hk & Hh & Hd & Ho).
  rewrite Hr in Hr'. injection Hr' as <-.
  split.
  - rewrite Hk, Hh, Hd, Ho. apply classification_lengths.
  - rewrite Ht, Hn, Hs. symmetry. apply filter_split_length.
Qed.

Lemma parse_partition_complete_witness :
  ∃ r, parse_error_csv upload_fs "/tmp/upload.csv" = inr r
    ∧ total_rows r = 3
    ∧ length (keywords r) + length (headlines r) + length (descriptions r)
        + length (other_errors r) = length (errors r)
    ∧ total_rows r = error_rows r + success_rows r.
Proof.
  eexists. split; [vm_compute; reflexivity|]. split; [reflexivity|].
  apply (parse_partition_complete upload_fs "/tmp/upload.csv").
  vm_compute. reflexivity.
Defined.

(** C4. For every row, the loop decides on the row's error text in this
    order: empty text counts the row as a success; non-empty text with a
    success indicator and none of "error", "rejected", "disapproved",
    "violation" counts it as a success; otherwise text with an error
    indicator counts it as a failure; otherwise the remaining non-empty
    text counts it as a failure too. *)
Theorem row_classifier_decides_in_order (error_col : option string)
    (has_row_type : bool) (st : Loop) (row : gmap string string) :
  let text := row_error_text error_col row in
  let low := lower text in
  let st' := process_row error_col has_row_type st row in
  (text = "" → _is_error_row text = false ∧ counted_success st st')
  ∧ (text ≠ "" →
     any_in SUCCESS_INDICATORS low = true →
     any_in ["error"; "rejected"; "disapproved"; "violation"] low = false →
     _is_error_row text = false ∧ counted_success st st')
  ∧ (text ≠ "" → success_signal low = false →
     any_in ERROR_INDICATORS low = true →
     _is_error_row text = true ∧ counted_failure st st')
  ∧ (text ≠ "" → success_signal low = false →
     any_in ERROR_INDICATORS low = false →
     _is_error_row text = true ∧ counted_failure st st').
Proof.
  cbv zeta. set (text := row_error_text error_col row).
  assert (∀ b, text ≠ "" → _is_error_row text = b →
               row_fails error_col row = b) as Hrow.
  { intros b Hne Hb. unfold row_fails. fold text. rewrite Hb.
    by apply truthy_true in Hne as ->. }
  split; [|split; [|split]].
  - intros E. split; [by rewrite E|].
    apply process_row_success. unfold row_fails. fold text. by rewrite E.
  - intros Hne Hs Hh.
    assert (_is_error_row text = false) as Hb.
    { rewrite _is_error_row_unfold. cbv zeta. unfold success_signal.
      fold hard_failures in Hh. by rewrite Hs, Hh. }
    split; [done|]. apply process_row_success. by apply Hrow.
  - intros Hne Hs He.
    assert (_is_error_row text = true) as Hb.
    { rewrite _is_error_row_unfold. cbv zeta. by rewrite Hs, He. }
    split; [done|]. apply process_row_failure. by apply Hrow.
  - intros Hne Hs He.
    assert (_is_error_row text = true) as Hb.
    { rewrite _is_error_row_unfold. cbv zeta. rewrite Hs, He.
      destruct (row_error_text_stripped error_col row) as [E|[s E]]; [done|].
      subst text. rewrite E in *. apply Nat.ltb_lt. by apply strip_lower_strip. }
    split; [done|]. apply process_row_failure. by apply Hrow.
Qed.

Lemma row_classifier_decides_in_order_witness :
  let st0 := {| all_errors := []; n_total := 0; n_error := 0; n_success := 0 |} in
  (_is_error_row "" = false
   ∧ counted_success st0 (process_row None true st0 created_row))
  ∧ (_is_error_row "Successfully created" = false
     ∧ counted_success st0 (process_row (Some "Results") true st0 created_row))
  ∧ (_is_error_row "Policy violation" = true
     ∧ counted_failure st0 (process_row (Some "Results") true st0 keyword_row))
  ∧ (_is_error_row "See account notes" = true
     ∧ counted_failure st0 (process_row (Some "Results") true st0 note_row)).
Proof.
  intros st0. split; [|split; [|split]].
  - destruct (row_classifier_decides_in_order None true st0 created_row)
      as (H & _). apply H. reflexivity.
  - destruct (row_classifier_decides_in_order (Some "Results") true st0 created_row)
      as (_ & H & _). apply H; [vm_compute; discriminate | reflexivity..].
  - destruct (row_classifier_decides_in_order (Some "Results") true st0 keyword_row)
      as (_ & _ & H & _). apply H; [vm_compute; discriminate | reflexivity..].
  - destruct (row_classifier_decides_in_order (Some "Results") true st0 note_row)
      as (_ & _ & _ & H). apply H; [vm_compute; discriminate | reflexivity..].
Defined.

(** C8, as the code has it.  [parse_error_csv] raises [FileNotFoundError]
    when the file is missing, before any row is read, and raises in no
    other case: every existing file yields a report.  A header that
    resolves to no error column is not an error: every row is then
    counted as a success and no record is emitted. *)
Theorem parse_raises_only_for_missing_file (fs : FileSystem)
    (filepath : string) :
  (fs filepath = None →
   parse_error_csv fs filepath = inl (FileNotFoundError filepath))
  ∧ (∀ f, fs filepath = Some f →
       ∃ r, parse_error_csv fs filepath = inr r
         ∧ total_rows r = length (rows f)
         ∧ (_find_error_column (fieldnames f) = None →
            errors r = [] ∧ error_rows r = 0
            ∧ success_rows r = length (rows f))).
Proof.
  split; [apply parse_missing|].
  intros f Hf.
  destruct (parse_existing _ _ _ Hf) as (r & Hr & He & Ht & Hn & Hs & _).
  exists r. split; [done|]. split; [done|].
  intros Hcol. rewrite Hcol in *. rewrite He, Hn, Hs. clear.
  induction (rows f) as [|row rs IH]; [done|].
  destruct IH as (IH1 & IH2 & IH3). simpl in *.
  by rewrite IH3.
Qed.

Lemma parse_raises_only_for_missing_file_witness :
  parse_error_csv plain_fs "/tmp/absent.csv"
    = inl (FileNotFoundError "/tmp/absent.csv")
  ∧ ∃ r, parse_error_csv plain_fs "/tmp/plain.csv" = inr r
      ∧ total_rows r = 1
      ∧ errors r = [] ∧ error_rows r = 0 ∧ success_rows r = 1.
Proof.
  split.
  - apply (parse_raises_only_for_missing_file plain_fs "/tmp/absent.csv").
    reflexivity.
  - destruct (parse_raises_only_for_missing_file plain_fs "/tmp/plain.csv")
      as [_ H].
    destruct (H {| fieldnames := ["Campaign"; "Ad group"; "Keyword"];
                   rows := [ {[ "Campaign" := "Spring"; "Keyword" := "gym" ]} ] |}
                eq_refl) as (r & Hr & Ht & Hnone).
    exists r. split; [exact Hr|]. split; [exact Ht|].
    apply Hnone. reflexivity.
Defined.

(** The specification's reading of C8 fails on a file without an error
    column: [parse_error_csv] returns a report for it. *)
Lemma parse_without_error_column_returns :
  ¬ raises_without_error_column plain_fs "/tmp/plain.csv".
Proof.
  intros H.
  destruct (H {| fieldnames := ["Campaign"; "Ad group"; "Keyword"];
                 rows := [ {[ "Campaign" := "Spring"; "Keyword" := "gym" ]} ] |}
              eq_refl eq_refl) as [e He].
  vm_compute in He. discriminate He.
Qed.

(** A failure row declared as a keyword row whose keyword cell is blank
    appends nothing. *)
Lemma row_errors_blank_keyword (row : gmap string string) (error_text : string) :
  row !! "Row Type" = Some "Keyword" →
  strip (or_else (row !! "Keyword") (or_else (row !! "keyword") "")) = "" →
  row_errors row error_text = [].
Proof.
  intros Ht Hk. unfold row_errors. rewrite Ht, Hk. reflexivity.
Qed.

(** C10. [error_rows] counts the rows taken for failures, not the records
    emitted.  A failure row of type "Keyword" whose keyword cell is empty
    adds one to [error_rows] and no record, so [errors] can be empty while
    [error_rows] is positive; one failure row of type
    "Responsive search ad" can add several records, one per attributed
    headline or description. *)
Theorem error_rows_counts_rows_not_records :
  (∀ fs filepath f r,
     fs filepath = Some f → parse_error_csv fs filepath = inr r →
     error_rows r =
       length (List.filter (row_fails (_find_error_column (fieldnames f)))
                 (rows f)))
  ∧ (∀ error_col has_row_type st row,
       row_fails error_col row = true →
       row !! "Row Type" = Some "Keyword" →
       strip (or_else (row !! "Keyword") (or_else (row !! "keyword") "")) = "" →
       let st' := process_row error_col has_row_type st row in
       n_error st' = S (n_error st) ∧ all_errors st' = all_errors st)
  ∧ (∃ r, parse_error_csv blank_keyword_fs "/tmp/blank.csv" = inr r
        ∧ error_rows r = 1 ∧ errors r = [])
  ∧ (∃ r, parse_error_csv ad_fs "/tmp/ad.csv" = inr r
        ∧ error_rows r = 1
        ∧ (value <$> errors r) = ["Nike Shoes"; "Great Deals"]
        ∧ (type <$> errors r) = ["headline"; "headline"]).
Proof.
  split; [|split; [|split]].
  - intros fs filepath f r Hf Hr.
    destruct (parse_existing _ _ _ Hf) as (r' & Hr' & _ & _ & Hn & _).
    rewrite Hr in Hr'. by injection Hr' as <-.
  - intros error_col has_row_type st row Hfail Ht Hk. cbv zeta.
    rewrite process_row_unfold, Hfail. simpl.
    rewrite (row_errors_blank_keyword _ _ Ht Hk). by rewrite app_nil_r.
  - eexists. split; [vm_compute; reflexivity|]. by split.
  - eexists. split; [vm_compute; reflexivity|]. by repeat split.
Qed.

Lemma error_rows_counts_rows_not_records_witness :
  (∃ r, parse_error_csv upload_fs "/tmp/upload.csv" = inr r ∧ error_rows r = 2)
  ∧ (let st0 := {| all_errors := []; n_total := 0; n_error := 0; n_success := 0 |} in
     let st' := process_row (Some "Results") true st0 blank_keyword_row in
     n_error st' = 1 ∧ all_errors st' = []).
Proof.
  destruct error_rows_counts_rows_not_records as (Hcount & Hblank & _).
  split.
  - eexists. split; [vm_compute; reflexivity|].
    refine (eq_trans (Hcount upload_fs "/tmp/upload.csv" _ _ eq_refl _) _).
    + vm_compute. reflexivity.
    + vm_compute. reflexivity.
  - apply (Hblank (Some "Results") true); reflexivity.
Defined.

End ParseErrorCsv.

(** * [_find_error_column] *)

Section FindErrorColumn.
Import Py ErrorParser Props.

Lemma first_some_Some {A B : Type} (f : A → option B) (l : list A) (y : B) :
  first_some f l = Some y ↔
  ∃ pre x post, l = pre ++ x :: post ∧ (∀ x', x' ∈ pre → f x' = None)
                ∧ f x = Some y.
Proof.
  induction l as [|a l IH]; simpl.
  - split; [done|]. intros (pre & x & post & E & _). by destruct pre.
  - destruct (f a) as [b|] eqn:Ea.
    + split.
      * intros [= ->]. exists [], a, l. repeat split; [|done].
        intros x' Hx'. by apply elem_of_nil in Hx'.
      * intros (pre & x & post & E & Hpre & Hx). destruct pre as [|a' pre].
        -- injection E as -> ->. congruence.
        -- injection E as -> ->.
           rewrite (Hpre a') in Ea by apply elem_of_cons, or_introl, eq_refl.
           discriminate Ea.
    + rewrite IH. split.
      * intros (pre & x & post & -> & Hpre & Hx).
        exists (a :: pre), x, post. repeat split; [|done].
        intros x' [->|Hx']%elem_of_cons; [done | by apply Hpre].
      * intros (pre & x & post & E & Hpre & Hx). destruct pre as [|a' pre].
        -- injection E as -> ->. congruence.
        -- injection E as -> ->. exists pre, x, post. repeat split; [|done].
           intros x' Hx'. apply Hpre. by apply elem_of_cons, or_intror.
Qed.

Lemma first_some_None {A B : Type} (f : A → option B) (l : list A) :
  first_some f l = None ↔ ∀ x, x ∈ l → f x = None.
Proof.
  induction l as [|a l IH]; simpl.
  - split; [|done]. intros _ x Hx. by apply elem_of_nil in Hx.
  - destruct (f a) as [b|] eqn:Ea.
    + split; [done|]. intros H.
      rewrite (H a) in Ea by apply elem_of_cons, or_introl, eq_refl.
      discriminate Ea.
    + rewrite IH. split.
      * intros H x [->|Hx]%elem_of_cons; [done | by apply H].
      * intros H x Hx. apply H. by apply elem_of_cons, or_intror.
Qed.

Lemma odict_get_set (k k' v : string) (d : list (string * string)) :
  odict_get k (odict_set k' v d)
  = if String.eqb k' k then Some v else odict_get k d.
Proof.
  induction d as [|[k1 v1] d IH]; simpl; [done|].
  destruct (String.eqb_spec k1 k') as [->|Hne]; simpl.
  - by destruct (String.eqb k' k).
  - rewrite IH. destruct (String.eqb_spec k1 k) as [->|]; [|done].
    by destruct (String.eqb_spec k' k) as [->|].
Qed.

Lemma elem_of_odict_set (k v k' v' : string) (d : list (string * string)) :
  (k, v) ∈ odict_set k' v' d → (k = k' ∧ v = v') ∨ (k, v) ∈ d.
Proof.
  induction d as [|[k1 v1] d IH]; simpl.
  - intros [= -> ->]%list_elem_of_singleton. by left.
  - destruct (String.eqb_spec k1 k') as [->|Hne].
    + intros [[= -> ->]|H]%elem_of_cons; [by left|].
      right. by apply elem_of_cons, or_intror.
    + intros [[= -> ->]|H]%elem_of_cons.
      * right. apply elem_of_cons. by left.
      * destruct (IH H) as [?|?]; [by left|].
        right. by apply elem_of_cons, or_intror.
Qed.

Lemma odict_set_keeps (k v k' v' : string) (d : list (string * string)) :
  k ≠ k' → (k, v) ∈ d → (k, v) ∈ odict_set k' v' d.
Proof.
  intros Hne. induction d as [|[k1 v1] d IH]; simpl.
  - intros H. by apply elem_of_nil in H.
  - destruct (String.eqb_spec k1 k') as [->|_].
    + intros [[= -> ->]|H]%elem_of_cons; [done|].
      by apply elem_of_cons, or_intror.
    + intros [[= -> ->]|H]%elem_of_cons.
      * apply elem_of_cons. by left.
      * apply elem_of_cons, or_intror. by apply IH.
Qed.

Lemma odict_set_has (k v : string) (d : list (string * string)) :
  (k, v) ∈ odict_set k v d.
Proof.
  induction d as [|[k1 v1] d IH]; simpl.
  - by apply list_elem_of_singleton.
  - destruct (String.eqb_spec k1 k) as [->|_].
    + apply elem_of_cons. by left.
    + by apply elem_of_cons, or_intror.
Qed.

Lemma normalized_headers_snoc (hs : list string) (h : string) :
  normalized_headers (hs ++ [h])
  = odict_set (_normalize_header h) h (normalized_headers hs).
Proof. unfold normalized_headers. by rewrite foldl_app. Qed.

(** A key of the dict holds a header with that normalized form. *)
Lemma normalized_get_Some (hs : list string) (key h : string) :
  odict_get key (normalized_headers hs) = Some h →
  h ∈ hs ∧ _normalize_header h = key.
Proof.
  induction hs as [|h' hs IH] using rev_ind; [done|].
  rewrite normalized_headers_snoc, odict_get_set.
  destruct (String.eqb_spec (_normalize_header h') key) as [E|_].
  - intros [= ->]. split; [|done].
    apply elem_of_app, or_intror. by apply list_elem_of_singleton.
  - intros [? ?]%IH. split; [|done]. by apply elem_of_app, or_introl.
Qed.

(** The normalized form of every header is a key of the dict. *)
Lemma normalized_get_is_Some (hs : list string) (h : string) :
  h ∈ hs → is_Some (odict_get (_normalize_header h) (normalized_headers hs)).
Proof.
  induction hs as [|h' hs IH] using rev_ind.
  - intros H. by apply elem_of_nil in H.
  - rewrite normalized_headers_snoc, odict_get_set.
    destruct (String.eqb_spec (_normalize_header h') (_normalize_header h));
      [eauto|].
    intros [H|E%list_elem_of_singleton]%elem_of_app; [by apply IH | by subst].
Qed.

Lemma normalized_elem (hs : list string) (norm orig : string) :
  (norm, orig) ∈ normalized_headers hs →
  orig ∈ hs ∧ _normalize_header orig = norm.
Proof.
  induction hs as [|h' hs IH] using rev_ind.
  - intros H. by apply elem_of_nil in H.
  - rewrite normalized_headers_snoc.
    intros [[-> ->]|H]%elem_of_odict_set.
    + split; [|done]. apply elem_of_app, or_intror.
      by apply list_elem_of_singleton.
    + destruct (IH H). split; [|done]. by apply elem_of_app, or_introl.
Qed.

Lemma normalized_has (hs : list string) (h : string) :
  h ∈ hs → ∃ orig, (_normalize_header h, orig) ∈ normalized_headers hs.
Proof.
  induction hs as [|h' hs IH] using rev_ind.
  - intros H. by apply elem_of_nil in H.
  - rewrite normalized_headers_snoc.
    intros [H|E%list_elem_of_singleton]%elem_of_app; [|subst h].
    + destruct (IH H) as [orig Ho].
      destruct (decide (_normalize_header h = _normalize_header h')) as [->|Hne].
      * exists h'. apply odict_set_has.
      * exists orig. by apply odict_set_keeps.
    + exists h'. apply odict_set_has.
Qed.

Lemma priority_get_None (headers : list string) (key : string) :
  ¬ exact_match headers key →
  odict_get key (normalized_headers headers) = None.
Proof.
  intros Hno. destruct (odict_get key (normalized_headers headers)) as [h|] eqn:E;
    [|done].
  destruct Hno. exists h. by apply normalized_get_Some.
Qed.

(** The fallback loop, once the priority loop has found nothing. *)
Lemma fallback_result (headers : list string) :
  (∀ key, key ∈ priority → ¬ exact_match headers key) →
  _find_error_column headers
  = first_some
      (λ '(norm, orig), if any_in fallback_words norm then Some orig else None)
      (normalized_headers headers).
Proof.
  intros Hno. unfold _find_error_column. cbv zeta.
  assert (first_some (λ key, odict_get key (normalized_headers headers)) priority
          = None) as ->; [|done].
  apply first_some_None. intros key Hkey. by apply priority_get_None, Hno.
Qed.

(** C9, as the code has it.  The resolver normalizes headers (strip,
    lowercase, space and hyphen to underscore) and returns a header whose
    normalized form is the first word of the priority list results,
    result, error, error_details, comment, validation_error, policy,
    status that some header matches exactly.  When no header matches
    exactly it returns a header whose normalized form contains one of the
    words error, result, comment, policy, validation; status is not among
    them, so "Upload Status" does not resolve while "Upload Result" does.
    It returns no column exactly when no header qualifies either way. *)
Theorem find_error_column_resolution (headers : list string) :
  (_normalize_header "  Error-Details " = "error_details"
   ∧ _normalize_header "Validation Error" = "validation_error")
  ∧ (∀ pre key post,
       ["results"; "result"; "error"; "error_details";
        "comment"; "validation_error"; "policy"; "status"]
         = pre ++ key :: post →
       (∀ k, k ∈ pre → ¬ exact_match headers k) →
       exact_match headers key →
       ∃ h, _find_error_column headers = Some h ∧ h ∈ headers
            ∧ _normalize_header h = key)
  ∧ ((∀ key, key ∈ priority → ¬ exact_match headers key) →
     (∃ h, h ∈ headers
           ∧ any_in ["error"; "result"; "comment"; "policy"; "validation"]
               (_normalize_header h) = true) →
     ∃ h, _find_error_column headers = Some h ∧ h ∈ headers
          ∧ any_in ["error"; "result"; "comment"; "policy"; "validation"]
              (_normalize_header h) = true)
  ∧ (_find_error_column headers = None ↔
     (∀ key, key ∈ priority → ¬ exact_match headers key)
     ∧ (∀ h, h ∈ headers →
             any_in ["error"; "result"; "comment"; "policy"; "validation"]
               (_normalize_header h) = false))
  ∧ _find_error_column ["Upload Status"] = None
  ∧ _find_error_column ["Upload Result"] = Some "Upload Result".
Proof.
  fold priority. fold fallback_words.
  split; [done|]. split; [|split; [|split; [|by split]]].
  - intros pre key post Hsplit Hpre [h0 [Hin0 Hn0]].
    destruct (normalized_get_is_Some headers h0 Hin0) as [h Hh].
    rewrite Hn0 in Hh.
    assert (first_some (λ k, odict_get k (normalized_headers headers)) priority
            = Some h) as Hfirst.
    { apply first_some_Some. exists pre, key, post. repeat split; [done| |done].
      intros k Hk. by apply priority_get_None, Hpre. }
    exists h. unfold _find_error_column. cbv zeta. rewrite Hfirst.
    split; [done|]. by apply normalized_get_Some.
  - intros Hno (h0 & Hin0 & Hw0). rewrite (fallback_result _ Hno).
    destruct (normalized_has headers h0 Hin0) as [orig0 Hentry].
    match goal with |- ∃ h, first_some ?g ?l = _ ∧ _ =>
      destruct (first_some g l) as [h|] eqn:E end.
    + exists h. split; [done|].
      apply first_some_Some in E as (pre & [norm orig] & post & Hl & _ & Hg).
      destruct (any_in fallback_words norm) eqn:Hw; [|discriminate Hg].
      injection Hg as ->.
      assert ((norm, h) ∈ normalized_headers headers) as Hin.
      { rewrite Hl. apply elem_of_app, or_intror, elem_of_cons. by left. }
      apply normalized_elem in Hin as [? <-]. by split.
    + rewrite first_some_None in E. specialize (E _ Hentry). cbv beta iota in E.
      rewrite Hw0 in E. discriminate E.
  - split.
    + intros Hnone.
      assert (∀ key, key ∈ priority → ¬ exact_match headers key) as Hno.
      { intros key Hkey [h0 [Hin0 Hn0]].
        unfold _find_error_column in Hnone. cbv zeta in Hnone.
        destruct (first_some (λ k, odict_get k (normalized_headers headers))
                    priority) as [h|] eqn:E; [discriminate Hnone|].
        rewrite first_some_None in E. specialize (E key Hkey).
        destruct (normalized_get_is_Some headers h0 Hin0) as [h Hh].
        rewrite Hn0, E in Hh. discriminate Hh. }
      split; [done|]. intros h Hin.
      rewrite (fallback_result _ Hno), first_some_None in Hnone.
      destruct (normalized_has headers h Hin) as [orig Hentry].
      specialize (Hnone _ Hentry). cbv beta iota in Hnone.
      by destruct (any_in fallback_words (_normalize_header h)).
    + intros [Hno Hw]. rewrite (fallback_result _ Hno).
      apply first_some_None. intros [norm orig] Hentry.
      apply normalized_elem in Hentry as [Hin <-].
      by rewrite (Hw _ Hin).
Qed.

Lemma find_error_column_resolution_witness :
  (∃ h, _find_error_column ["Status"; "Upload Result"; " result "] = Some h
        ∧ _normalize_header h = "result")
  ∧ (∃ h, _find_error_column ["Keyword"; "Upload Result"] = Some h
          ∧ any_in fallback_words (_normalize_header h) = true)
  ∧ _find_error_column ["Campaign"; "Campaign status"] = None.
Proof.
  split; [|split].
  - destruct (find_error_column_resolution ["Status"; "Upload Result"; " result "])
      as (_ & H & _).
    destruct (H ["results"] "result"
                ["error"; "error_details"; "comment"; "validation_error";
                 "policy"; "status"] eq_refl) as (h & Hh & _ & Hn).
    + intros k ->%list_elem_of_singleton (h & Hin & Hn).
      repeat (apply elem_of_cons in Hin as [->|Hin]; [discriminate Hn|]).
      by apply elem_of_nil in Hin.
    + exists " result ". split; [|reflexivity].
      do 2 apply elem_of_cons, or_intror. apply elem_of_cons. by left.
    + by exists h.
  - destruct (find_error_column_resolution ["Keyword"; "Upload Result"])
      as (_ & _ & H & _).
    destruct H as (h & Hh & _ & Hw).
    + intros key Hkey (h & Hin & Hn).
      repeat (apply elem_of_cons in Hin as [->|Hin];
              [subst key; vm_compute in Hkey;
               repeat (apply elem_of_cons in Hkey as [Hkey|Hkey];
                       [discriminate Hkey|]);
               by apply elem_of_nil in Hkey|]).
      by apply elem_of_nil in Hin.
    + exists "Upload Result". split; [|reflexivity].
      apply elem_of_cons, or_intror. apply elem_of_cons. by left.
    + by exists h.
  - destruct (find_error_column_resolution ["Campaign"; "Campaign status"])
      as (_ & _ & _ & [_ H] & _).
    apply H. split.
    + intros key Hkey (h & Hin & Hn).
      repeat (apply elem_of_cons in Hin as [->|Hin];
              [subst key; vm_compute in Hkey;
               repeat (apply elem_of_cons in Hkey as [Hkey|Hkey];
                       [discriminate Hkey|]);
               by apply elem_of_nil in Hkey|]).
      by apply elem_of_nil in Hin.
    + intros h Hin.
      repeat (apply elem_of_cons in Hin as [->|Hin]; [reflexivity|]).
      by apply elem_of_nil in Hin.
Defined.

(** The specification's reading of C9 fails on the header
    "Upload Status": its normalized form contains the priority word
    status, yet no column is returned. *)
Lemma upload_status_not_resolved :
  ¬ resolves_by_priority_substring ["Upload Status"].
Proof.
  intros H. destruct H as (h & Hh & _).
  - intros key Hkey (h & ->%list_elem_of_singleton & Hn).
    subst key. vm_compute in Hkey.
    repeat (apply elem_of_cons in Hkey as [Hkey|Hkey]; [discriminate Hkey|]).
    by apply elem_of_nil in Hkey.
  - exists "Upload Status". split; [by apply list_elem_of_singleton | reflexivity].
  - discriminate Hh.
Qed.

End FindErrorColumn.

(** * [errors_to_submission] *)

Section ErrorsToSubmission.
Import Py ErrorParser Props Samples.

Context {A K : Type} `{EqDecision K} (key : A → K).

Lemma first_occurrences_sublist (l : list A) :
  first_occurrences key l `sublist_of` l.
Proof.
  induction l as [|x l IH]; simpl; [done|].
  apply sublist_skip. etrans; [apply sublist_filter | done].
Qed.

Lemma first_occurrences_NoDup (l : list A) :
  NoDup (key <$> first_occurrences key l).
Proof.
  induction l as [|x l IH]; simpl; [constructor|].
  apply NoDup_cons. split.
  - intros (y & Hy & [Hne _]%list_elem_of_filter)%list_elem_of_fmap. done.
  - eapply sublist_NoDup; [exact IH | apply fmap_sublist, sublist_filter].
Qed.

Lemma first_occurrences_snoc (l : list A) (x : A) :
  first_occurrences key (l ++ [x])
  = first_occurrences key l
    ++ (if decide (key x ∈ key <$> l) then [] else [x]).
Proof.
  induction l as [|a l IH]; simpl.
  - rewrite filter_nil. destruct (decide (key x ∈ [])) as [H0|_]; [|done].
    by apply elem_of_nil in H0.
  - rewrite IH, filter_app. f_equal. f_equal.
    change (list_fmap A K key l) with (key <$> l).
    destruct (decide (key x ∈ key <$> l)) as [Hin|Hnin];
      destruct (decide (key x ∈ key a :: (key <$> l))) as [Hin'|Hnin'];
      rewrite ?filter_nil; try done.
    + destruct Hnin'. by apply elem_of_cons, or_intror.
    + apply elem_of_cons in Hin' as [E|?]; [|done].
      by rewrite filter_cons_False by (intros Hn; by apply Hn).
    + rewrite filter_cons_True; [done|].
      intros E. apply Hnin', elem_of_cons. by left.
Qed.

End ErrorsToSubmission.

Section SubmissionBatch.
Import Py ErrorParser Props Samples.

(** The loop keeps, in order, the first eligible error of every key, and
    [seen] holds the keys of the eligible errors read so far. *)
Lemma submit_loop (action : string) (es : list ParsedError) :
  let b := foldl (submit_step action) {| submissions := []; seen := ∅ |} es in
  submissions b
    = submission action
        <$> first_occurrences dedup_key (List.filter eligible es)
  ∧ ∀ k, k ∈ seen b ↔ k ∈ dedup_key <$> List.filter eligible es.
Proof.
  induction es as [|e es IH] using rev_ind; simpl.
  - split; [done|]. intros k. rewrite elem_of_nil. set_solver.
  - destruct IH as [IHs IHk]. rewrite foldl_app, List.filter_app. simpl.
    unfold submit_step at 1 3. fold (eligible e). fold (dedup_key e).
    destruct (eligible e); simpl; [|by rewrite app_nil_r].
    rewrite first_occurrences_snoc.
    assert (∀ k, k ∈ dedup_key <$> (List.filter eligible es ++ [e])
                 ↔ k = dedup_key e ∨ k ∈ seen
                     (foldl (submit_step action)
                        {| submissions := []; seen := ∅ |} es)) as Hkeys.
    { intros k. rewrite fmap_app, elem_of_app, IHk. simpl.
      rewrite list_elem_of_singleton. tauto. }
    destruct (decide (dedup_key e ∈ seen _)) as [Hin|Hnin]; simpl.
    + rewrite decide_True by (by apply IHk).
      rewrite app_nil_r. split; [done|].
      intros k. rewrite Hkeys. split; [by right|]. by intros [->|?].
    + rewrite decide_False by (by rewrite <- IHk).
      rewrite !fmap_app, IHs. split; [done|].
      intros k. rewrite fmap_app in Hkeys.
      rewrite Hkeys, elem_of_union, elem_of_singleton. tauto.
Qed.

Lemma eligible_type (e : ParsedError) :
  eligible e = true → type e ∈ ["keyword"; "headline"; "description"].
Proof.
  unfold eligible, in_tuple. simpl.
  destruct (String.eqb_spec (type e) "keyword") as [->|_];
    [intros _; apply elem_of_cons; by left|].
  destruct (String.eqb_spec (type e) "headline") as [->|_];
    [intros _; apply elem_of_cons, or_intror, elem_of_cons; by left|].
  destruct (String.eqb_spec (type e) "description") as [->|_]; [|done].
  intros _. do 2 apply elem_of_cons, or_intror. apply elem_of_cons. by left.
Qed.

(** C2. For every report and action, [errors_to_submission] returns the
    items of the errors of type keyword, headline or description,
    deduplicated on (type, lowercased value): the first occurrence of a
    key is kept and the order of the errors is preserved.  In each item
    [original_error] is cut to 500 characters and [reason] is the error's
    reason after the marker "Google Ads: ".  For the errors keyword
    "Gym", keyword "gym", headline "Join Now" the batch has exactly two
    items, keyword "Gym" and the headline. *)
Theorem errors_to_submission_dedups (parsed : ParseResult) (action : string) :
  let kept :=
    first_occurrences dedup_key (List.filter eligible (errors parsed)) in
  errors_to_submission parsed action = submission action <$> kept
  ∧ kept `sublist_of` errors parsed
  ∧ NoDup (dedup_key <$> kept)
  ∧ (∀ e, e ∈ kept → type e ∈ ["keyword"; "headline"; "description"])
  ∧ (∀ e, submission action e !! "type" = Some (type e)
        ∧ submission action e !! "value" = Some (value e)
        ∧ submission action e !! "reason" = Some ("Google Ads: " +:+ reason e)
        ∧ submission action e !! "original_error"
            = Some (str_take 500 (original_error e))
        ∧ len (str_take 500 (original_error e)) ≤ 500
        ∧ submission action e !! "action" = Some action)
  ∧ errors_to_submission gym_report action
      = [submission action (rejected "keyword" "Gym");
         submission action (rejected "headline" "Join Now")].
Proof.
  cbv zeta. split; [|split; [|split; [|split; [|split]]]].
  - unfold errors_to_submission. apply submit_loop.
  - etrans; [apply first_occurrences_sublist|].
    induction (errors parsed) as [|e es IH]; simpl; [done|].
    destruct (eligible e); [by apply sublist_skip | by apply sublist_cons].
  - apply first_occurrences_NoDup.
  - intros e He. apply eligible_type.
    eapply elem_of_sublist in He; [|apply first_occurrences_sublist].
    apply list_elem_of_In, List.filter_In in He. tauto.
  - intros e. repeat split; try reflexivity. apply len_str_take_le.
  - unfold errors_to_submission.
    destruct (submit_loop action (errors gym_report)) as [-> _].
    reflexivity.
Qed.

Lemma errors_to_submission_dedups_witness :
  length (errors_to_submission gym_report "auto_ban") = 2
  ∧ type (rejected "keyword" "Gym") ∈ ["keyword"; "headline"; "description"].
Proof.
  destruct (errors_to_submission_dedups gym_report "auto_ban")
    as (_ & _ & _ & Hty & _ & Hex).
  split.
  - exact (f_equal length Hex).
  - apply Hty. vm_compute. apply elem_of_cons. by left.
Defined.

End SubmissionBatch.

(** * [filter_keywords] *)

Section FilterKeywords.
Import Py Generator Props.

(** The loop sorts every keyword, in order, into one of the two lists. *)
Lemma filter_keywords_unfold (keywords banned : list string) :
  filter_keywords keywords banned
  = (List.filter (λ kw, negb (is_banned (lower <$> banned) kw)) keywords,
     List.filter (is_banned (lower <$> banned)) keywords).
Proof.
  unfold filter_keywords. cbv zeta.
  assert (∀ kws filtered removed,
            foldl (λ '(filtered, removed) kw,
                     if is_banned (lower <$> banned) kw
                     then (filtered, removed ++ [kw])
                     else (filtered ++ [kw], removed))
              (filtered, removed) kws
            = (filtered
                 ++ List.filter (λ kw, negb (is_banned (lower <$> banned) kw)) kws,
               removed ++ List.filter (is_banned (lower <$> banned)) kws))
    as Hloop.
  { induction kws as [|kw kws IH]; intros filtered removed; simpl.
    - by rewrite !app_nil_r.
    - destruct (is_banned (lower <$> banned) kw); simpl;
        by rewrite IH, <- app_assoc. }
  apply Hloop.
Qed.

Lemma is_banned_hits (banned : list string) (kw : string) :
  is_banned (lower <$> banned) kw = true ↔ ∃ b, b ∈ banned ∧ ban_hits b kw.
Proof.
  unfold is_banned, ban_hits. cbv zeta. rewrite existsb_exists. split.
  - intros (bl & Hin & Hb).
    apply list_elem_of_In, list_elem_of_fmap in Hin as (b & -> & Hin).
    exists b. split; [done|].
    apply orb_true_iff in Hb as [Hb|Hb]; apply str_in_spec in Hb; tauto.
  - intros (b & Hin & Hb). exists (lower b). split.
    + apply list_elem_of_In, list_elem_of_fmap. eauto.
    + apply orb_true_iff. rewrite !str_in_spec. tauto.
Qed.

(** C3, as the code has it.  [filter_keywords] removes a keyword if and
    only if the keyword, lowercased and stripped of surrounding blanks,
    contains some lowercased denied term or some lowercased denied term
    contains it; the other keywords are kept, both lists in the order of
    the input.  The deny-list ["yoga"] removes "yoga classes" and
    "hot yoga"; the deny-list ["extreme yoga studio"] removes "yoga". *)
Theorem filter_keywords_bidirectional (keywords banned : list string) :
  (∀ kw, kw ∈ (filter_keywords keywords banned).2 ↔
         kw ∈ keywords ∧ ∃ b, b ∈ banned ∧ ban_hits b kw)
  ∧ (∀ kw, kw ∈ (filter_keywords keywords banned).1 ↔
           kw ∈ keywords ∧ ¬ ∃ b, b ∈ banned ∧ ban_hits b kw)
  ∧ (filter_keywords keywords banned).1 `sublist_of` keywords
  ∧ (filter_keywords keywords banned).2 `sublist_of` keywords
  ∧ filter_keywords ["yoga classes"; "hot yoga"; "spin class"] ["yoga"]
      = (["spin class"], ["yoga classes"; "hot yoga"])
  ∧ filter_keywords ["yoga"] ["extreme yoga studio"] = ([], ["yoga"]).
Proof.
  rewrite filter_keywords_unfold. simpl.
  assert (∀ (f : string → bool) l, List.filter f l `sublist_of` l) as Hsub.
  { intros f l. induction l as [|x l IH]; simpl; [done|].
    destruct (f x); [by apply sublist_skip | by apply sublist_cons]. }
  split; [|split; [|by repeat split]].
  - intros kw. rewrite list_elem_of_In, List.filter_In, <- list_elem_of_In.
    by rewrite is_banned_hits.
  - intros kw. rewrite list_elem_of_In, List.filter_In, <- list_elem_of_In.
    rewrite negb_true_iff, <- not_true_iff_false. by rewrite is_banned_hits.
Qed.

Lemma filter_keywords_bidirectional_witness :
  "Yoga Classes" ∈ (filter_keywords ["Yoga Classes"; "pilates"] ["yoga"]).2
  ∧ "pilates" ∈ (filter_keywords ["Yoga Classes"; "pilates"] ["yoga"]).1.
Proof.
  destruct (filter_keywords_bidirectional ["Yoga Classes"; "pilates"] ["yoga"])
    as (Hrem & Hkept & _).
  split.
  - apply Hrem. split; [apply elem_of_cons; by left|].
    exists "yoga". split; [by apply list_elem_of_singleton|].
    left. by exists "", " classes".
  - apply Hkept. split; [apply elem_of_cons, or_intror, elem_of_cons; by left|].
    intros (b & Hb%list_elem_of_singleton & Hhit). subst b.
    destruct Hhit as [Hhit|Hhit]; apply str_in_spec in Hhit; discriminate Hhit.
Defined.

(** The specification's reading of C3 fails for a keyword and a denied
    term that both end in a blank: "hot yoga " contains "yoga " and is
    kept, because the keyword is stripped before the comparison. *)
Lemma trailing_blank_keyword_kept :
  ¬ removes_iff_contains ["hot yoga "] ["yoga "].
Proof.
  intros H.
  destruct (H "hot yoga ") as [_ Hrem]; [by apply list_elem_of_singleton|].
  assert ("hot yoga " ∈ (filter_keywords ["hot yoga "] ["yoga "]).2) as Hin.
  { apply Hrem. exists "yoga ". split; [by apply list_elem_of_singleton|].
    left. by exists "hot ", "". }
  vm_compute in Hin. by apply elem_of_nil in Hin.
Qed.

End FilterKeywords.

(** * [_extract_reason] *)

Section ExtractReason.
Import Py ErrorParser Props Samples.

(** The reason is never longer than 200 characters plus the ellipsis. *)
Lemma _extract_reason_len (error_text : string) :
  len (_extract_reason error_text) ≤ 203.
Proof.
  unfold _extract_reason. cbv zeta.
  match goal with |- context [200 <? len ?t] =>
    destruct (Nat.ltb_spec 200 (len t)) as [Hlong|Hshort];
    [pose proof (len_str_take_le 200 t) as Hle|]
  end.
  - rewrite len_app. change (len "...") with 3. lia.
  - lia.
Qed.

(** The text kept before the cut to 200 characters: the stripped text, or
    what follows its first ": " when that has more than 10 characters. *)
Lemma _extract_reason_segment (error_text : string) :
  ∃ kept,
    _extract_reason error_text
      = (if 200 <? len kept then str_take 200 kept +:+ "..." else kept)
    ∧ ((str_in ": " (strip error_text) = false ∧ kept = strip error_text)
       ∨ ∃ head tail,
           strip error_text = head +:+ ": " +:+ tail
           ∧ kept = if 10 <? len tail then tail else strip error_text).
Proof.
  unfold _extract_reason. cbv zeta.
  destruct (str_in ": " (strip error_text)) eqn:Hin.
  - destruct (split1_found _ _ Hin) as (head & tail & Hsplit & Htext).
    rewrite Hsplit. simpl. eexists. split; [reflexivity|].
    right. by exists head, tail.
  - eexists. split; [reflexivity|]. by left.
Qed.

Example reason_after_colon :
  _extract_reason "Error: the keyword is too long" = "the keyword is too long".
Proof. reflexivity. Qed.

Example reason_short_tail_kept_whole :
  _extract_reason "Policy violation: trademark" = "Policy violation: trademark".
Proof. reflexivity. Qed.

(** C6 at a text of more than 200 characters: the reason [parse_error_csv]
    stores is the first 200 characters followed by "...", 203
    characters in all. *)
Theorem long_reason_has_203_characters :
  len long_text = 209
  ∧ _extract_reason long_text = str_take 200 long_text +:+ "..."
  ∧ len (_extract_reason long_text) = 203
  ∧ ∃ r e, parse_error_csv long_fs "/tmp/long.csv" = inr r
      ∧ errors r = [e] ∧ len (reason e) = 203.
Proof.
  split; [reflexivity|]. split; [reflexivity|]. split; [reflexivity|].
  eexists. eexists. split; [vm_compute; reflexivity|]. by split.
Qed.

End ExtractReason.

(** * [validate_headlines] *)

Section ValidateHeadlines.
Import Py Generator.

(** [rsplit1] either finds no separator, or cuts at the last one. *)
Lemma rsplit1_spec (c : ascii) (s : string) :
  (rsplit1 c s = [s] ∧ str_in (String c "") s = false)
  ∨ (∃ a b, rsplit1 c s = [a; b] ∧ s = a +:+ String c b
            ∧ str_in (String c "") b = false).
Proof.
  induction s as [|x s IH]; [by left|].
  simpl. destruct IH as [[-> Hno]|(a & b & -> & Hs & Hno)].
  - destruct (Ascii.eqb_spec x c) as [->|Hne].
    + right. by exists "", s.
    + left. split; [done|]. rewrite Hno.
      destruct (Ascii.eqb_spec c x) as [->|_]; done.
  - right. exists (String x a), b. by rewrite Hs.
Qed.

(** The truncation never yields more than [limit] characters. *)
Lemma cut_at_word_len (limit : nat) (h : string) :
  len (cut_at_word limit h) ≤ limit.
Proof.
  unfold cut_at_word. destruct (Nat.ltb_spec limit (len h)) as [Hlong|]; [|lia].
  pose proof (len_str_take_le limit h) as Hle.
  destruct (rsplit1_spec " " (str_take limit h))
    as [[-> _]|(a & b & -> & Hs & _)]; [done|].
  rewrite Hs, len_app in Hle. lia.
Qed.

(** When the first [limit] characters hold a blank, the truncation ends
    just before the last of them. *)
Lemma cut_at_word_boundary (limit : nat) (h : string) :
  limit < len h →
  str_in " " (str_take limit h) = true →
  ∃ tail, str_take limit h = cut_at_word limit h +:+ " " +:+ tail
          ∧ str_in " " tail = false
          ∧ len (cut_at_word limit h) < limit.
Proof.
  intros Hlong Hsp. unfold cut_at_word.
  apply Nat.ltb_lt in Hlong as ->.
  pose proof (len_str_take_le limit h) as Hle.
  destruct (rsplit1_spec " " (str_take limit h))
    as [[_ Hno]|(a & b & -> & Hs & Hno)]; [congruence|].
  exists b. split; [done|]. split; [done|].
  rewrite Hs, len_app in Hle. simpl in Hle. lia.
Qed.

(** Every headline the loop has accepted is a trimmed, truncated input
    that passed the two tests. *)
Lemma validated_origin (hs : list string) (st : Validation) (x : string) :
  x ∈ validated (foldl validate_step st hs) →
  x ∈ validated st
  ∨ ∃ h, h ∈ hs ∧ x = cut_at_word 30 (strip h)
         ∧ 5 ≤ len x ∧ any_in forbidden (lower x) = false.
Proof.
  revert st. induction hs as [|h hs IH]; intros st Hx; [by left|].
  apply (IH (validate_step st h)) in Hx as [Hx|(h' & Hin & Hrest)].
  - revert Hx. unfold validate_step.
    destruct (decide (_ ∈ seen st)); [by left|].
    destruct (any_in forbidden (lower (cut_at_word 30 (strip h)))) eqn:Hf;
      [by left|].
    destruct (Nat.leb_spec 5 (len (cut_at_word 30 (strip h)))) as [H5|_];
      [|by left].
    cbn [negb andb validated].
    intros [?|Hx%list_elem_of_singleton]%elem_of_app; [by left|subst x].
    right. exists h. split; [apply elem_of_cons; by left|done].
  - right. exists h'. split; [by apply elem_of_cons, or_intror | done].
Qed.

(** The loop of [validate_headlines] keeps its list free of repeats, case
    apart, and every lowercased entry is in [seen]. *)
Lemma validate_loop_distinct (hs : list string) (st : Validation) :
  NoDup (lower <$> validated st) →
  (∀ x, x ∈ validated st → lower x ∈ seen st) →
  NoDup (lower <$> validated (foldl validate_step st hs)).
Proof.
  revert st. induction hs as [|h hs IH]; intros st Hnd Hseen; [done|].
  cbn [foldl]. apply IH; unfold validate_step.
  - destruct (decide (_ ∈ seen st)) as [|Hnew]; [done|].
    destruct (negb _ && _); cbn [validated]; [|done].
    rewrite fmap_app. apply NoDup_app. split; [done|]. split.
    + intros y (x & -> & Hx)%list_elem_of_fmap Hy%list_elem_of_singleton.
      apply Hnew. rewrite <- Hy. by apply Hseen.
    + apply NoDup_singleton.
  - destruct (decide (_ ∈ seen st)) as [|Hnew]; [done|].
    destruct (negb _ && _); cbn [validated seen]; intros x Hx.
    + apply elem_of_app in Hx as [Hx|Hx%list_elem_of_singleton].
      * apply elem_of_union. right. by apply Hseen.
      * subst x. apply elem_of_union. left. by apply elem_of_singleton.
    + apply elem_of_union. right. by apply Hseen.
Qed.

(** What [seen] holds after one iteration. *)
Lemma validate_step_seen (st : Validation) (h y : string) :
  y ∈ seen (validate_step st h) ↔
  y = lower (cut_at_word 30 (strip h)) ∨ y ∈ seen st.
Proof.
  unfold validate_step.
  destruct (decide (_ ∈ seen st)) as [Hin|Hnew].
  - split; [by right|]. by intros [->|?].
  - destruct (negb _ && _); cbn [seen];
      by rewrite elem_of_union, elem_of_singleton.
Qed.

(** Every headline the loop has accepted comes from an input that passed
    the two tests and that no input before it repeats, case apart, once
    trimmed and truncated. *)
Lemma validated_first (hs : list string) (st : Validation) (x : string) :
  x ∈ validated (foldl validate_step st hs) →
  x ∈ validated st
  ∨ ∃ pre h post,
      hs = pre ++ h :: post ∧ x = cut_at_word 30 (strip h)
      ∧ 5 ≤ len x ∧ any_in forbidden (lower x) = false
      ∧ (lower x ∉ seen st)
      ∧ ∀ h', h' ∈ pre → lower (cut_at_word 30 (strip h')) ≠ lower x.
Proof.
  revert st. induction hs as [|h hs IH]; intros st Hx; [by left|].
  apply (IH (validate_step st h)) in Hx
    as [Hx|(pre & h0 & post & -> & -> & H5 & Hf & Hnew & Hpre)].
  - revert Hx. unfold validate_step.
    destruct (decide (_ ∈ seen st)) as [|Hnew]; [by left|].
    destruct (any_in forbidden (lower (cut_at_word 30 (strip h)))) eqn:Hf;
      [by left|].
    destruct (Nat.leb_spec 5 (len (cut_at_word 30 (strip h)))) as [H5|_];
      [|by left].
    cbn [negb andb validated].
    intros [?|Hx%list_elem_of_singleton]%elem_of_app; [by left|subst x].
    right. exists [], h, hs. repeat split; try done.
    intros h' Hh'. by apply elem_of_nil in Hh'.
  - right. exists (h :: pre), h0, post. repeat split; try done.
    + intros Hin. apply Hnew, validate_step_seen. by right.
    + intros h' [->|Hh']%elem_of_cons; [|by apply Hpre].
      intros Heq. apply Hnew, validate_step_seen. by left.
Qed.

(** C7, as the code has it.  [validate_headlines] strips each headline
    and leaves it unchanged when it has at most 30 characters.  A longer
    headline whose first 30 characters hold a blank is cut back to the
    text before the last such blank, so it ends where a word ended and
    has fewer than 30 characters.  The result is listed only when it has
    at least 5 characters, contains no forbidden term and repeats, case
    apart, the result of no headline before it in the input; so no two
    listed headlines are equal case apart, and every listed headline has
    at most 30 characters.  The 34-character headline
    "Best Fitness Classes In Washington" is cut to
    "Best Fitness Classes In" and then dropped, because it contains
    "best"; "Join Fitness Classes In Washington" is listed as
    "Join Fitness Classes In", and once only when it comes again in
    capitals. *)
Theorem validate_headlines_truncation (headlines : list string) :
  (∀ x, x ∈ validate_headlines headlines →
        ∃ pre h post,
          headlines = pre ++ h :: post
          ∧ x = cut_at_word 30 (strip h)
          ∧ len x ≤ 30 ∧ 5 ≤ len x
          ∧ any_in ["best"; "cheap"; "free"; "#1"; "guaranteed"] (lower x)
            = false
          ∧ ∀ h', h' ∈ pre → lower (cut_at_word 30 (strip h')) ≠ lower x)
  ∧ NoDup (lower <$> validate_headlines headlines)
  ∧ (∀ h, len (strip h) ≤ 30 → cut_at_word 30 (strip h) = strip h)
  ∧ (∀ h, 30 < len (strip h) →
          str_in " " (str_take 30 (strip h)) = true →
          ∃ tail, str_take 30 (strip h)
                    = cut_at_word 30 (strip h) +:+ " " +:+ tail
                  ∧ str_in " " tail = false
                  ∧ len (cut_at_word 30 (strip h)) < 30)
  ∧ len "Best Fitness Classes In Washington" = 34
  ∧ cut_at_word 30 (strip "Best Fitness Classes In Washington")
      = "Best Fitness Classes In"
  ∧ validate_headlines ["Best Fitness Classes In Washington"] = []
  ∧ validate_headlines ["Join Fitness Classes In Washington"]
      = ["Join Fitness Classes In"]
  ∧ validate_headlines ["Join Fitness Classes In Washington";
                        "JOIN FITNESS CLASSES IN WASHINGTON"]
      = ["Join Fitness Classes In"].
Proof.
  split; [|split; [|split; [|split; [|by repeat split]]]].
  - intros x Hx. unfold validate_headlines in Hx.
    eapply elem_of_sublist in Hx; [|apply sublist_take].
    apply validated_first in Hx
      as [Hx|(pre & h & post & -> & -> & H5 & Hf & _ & Hpre)].
    + by apply elem_of_nil in Hx.
    + exists pre, h, post. repeat split; try done. apply cut_at_word_len.
  - unfold validate_headlines.
    eapply sublist_NoDup; [|apply fmap_sublist, sublist_take].
    apply validate_loop_distinct; [constructor|].
    intros x Hx. by apply elem_of_nil in Hx.
  - intros h Hle. unfold cut_at_word.
    by destruct (Nat.ltb_spec 30 (len (strip h))); [lia|].
  - intros h. apply cut_at_word_boundary.
Qed.

Lemma validate_headlines_truncation_witness :
  (∃ pre h post,
     ["Join Now Today"; "  Join Fitness Classes In Washington "]
       = pre ++ h :: post
     ∧ "Join Fitness Classes In" = cut_at_word 30 (strip h)
     ∧ ∀ h', h' ∈ pre →
             lower (cut_at_word 30 (strip h'))
             ≠ lower "Join Fitness Classes In")
  ∧ cut_at_word 30 (strip " Yoga Studio ") = "Yoga Studio"
  ∧ ∃ tail, str_take 30 (strip "Join Fitness Classes In Washington")
            = cut_at_word 30 (strip "Join Fitness Classes In Washington")
              +:+ " " +:+ tail
          ∧ str_in " " tail = false.
Proof.
  split; [|split].
  - destruct (validate_headlines_truncation
                ["Join Now Today"; "  Join Fitness Classes In Washington "])
      as (H & _).
    destruct (H "Join Fitness Classes In")
      as (pre & h & post & Hsplit & Hcut & _ & _ & _ & Hpre).
    + vm_compute. apply elem_of_cons. right. apply elem_of_cons. by left.
    + by exists pre, h, post.
  - destruct (validate_headlines_truncation []) as (_ & _ & H & _).
    apply (H " Yoga Studio "). vm_compute. lia.
  - destruct (validate_headlines_truncation []) as (_ & _ & _ & H & _).
    destruct (H "Join Fitness Classes In Washington") as (tail & Ht & Hno & _).
    + vm_compute. lia.
    + reflexivity.
    + by exists tail.
Defined.

(** The specification's reading of C7 fails on its own example: the
    headline "Best Fitness Classes In Washington" is not in the output
    at all. *)
Lemma best_headline_not_listed :
  ¬ ∃ x, x ∈ validate_headlines ["Best Fitness Classes In Washington"].
Proof. intros [x Hx]. vm_compute in Hx. by apply elem_of_nil in Hx. Qed.

(** A long headline without a blank is cut inside the word. *)
Example long_word_cut_inside :
  validate_headlines ["Supercalifragilisticexpialidocious!!"]
  = ["Supercalifragilisticexpialidoc"].
Proof. reflexivity. Qed.

End ValidateHeadlines.

(** * The rows of [generate_csv] *)

Section BuildRows.
Import Py Generator.

(** Writing numbered columns leaves the columns that start with another
    letter as they are. *)
Lemma numbered_column_frame (Col key : string) (c k : ascii)
    (rest krest : string) (cell : string → string)
    (l : list (nat * string)) (row : gmap string string) :
  Col = String c rest → key = String k krest → c ≠ k →
  foldl (λ r '(i, h), <[Col +:+ str_of_nat i := cell h]> r) row l !! key
  = row !! key.
Proof.
  intros -> -> Hc. revert row. induction l as [|[i h] l IH]; intros row;
    [done|].
  simpl. rewrite IH. rewrite lookup_insert_ne; [done|].
  rewrite app_String. intros [= E _]. by apply Hc.
Qed.

Lemma numbered_column_inj (Col : string) (i j : nat) :
  Col +:+ str_of_nat i = Col +:+ str_of_nat j → i = j.
Proof.
  intros E. apply (inj (String.app Col)) in E.
  by apply (inj (pretty : nat → string)) in E.
Qed.

(** After a loop over [enumerate(l, k)] that writes a numbered column,
    column [j] holds element [j - k] of [l] when there is one, and what the
    row held before otherwise. *)
Lemma numbered_column_lookup (Col : string) (cell : string → string)
    (l : list string) (row : gmap string string) (k j : nat) :
  foldl (λ r '(i, h), <[Col +:+ str_of_nat i := cell h]> r) row
    (zip (seq k (length l)) l) !! (Col +:+ str_of_nat j)
  = if decide (k ≤ j < k + length l) then cell <$> l !! (j - k)
    else row !! (Col +:+ str_of_nat j).
Proof.
  revert row k. induction l as [|x l IH]; intros row k.
  - simpl. by rewrite decide_False by lia.
  - cbn [length seq zip zip_with foldl]. rewrite IH.
    destruct (decide (S k ≤ j < S k + length l)) as [Hin|Hout].
    + rewrite decide_True by (simpl; lia).
      by replace (j - k) with (S (j - S k)) by lia.
    + destruct (decide (j = k)) as [->|Hne].
      * rewrite lookup_insert_eq, decide_True by (simpl; lia).
        by rewrite Nat.sub_diag.
      * rewrite decide_False by (simpl; lia).
        rewrite lookup_insert_ne; [done|].
        intros E%numbered_column_inj. by apply Hne.
Qed.

(** The rows are one campaign row, one ad-group row, a keyword row for
    each of the first ten keywords and one ad row, and none of them has a
    "Row Type" column.  The ad row holds the first eight headlines cut to
    30 characters in "Headline 1", "Headline 2", ..., the first two
    descriptions cut to 90 characters likewise, and the site address,
    with "https://" in front unless it begins with "http". *)
Lemma generate_csv_rows_shape (website_url business_name : string)
    (config : gmap string string) (start_date end_date : string)
    (content : Content) :
  let rows :=
    generate_csv_rows website_url business_name config start_date end_date
      content in
  length rows = 3 + 10 `min` length (keywords content)
  ∧ (∃ campaign_row ad_group_row keyword_rows ad_row,
       rows = [campaign_row; ad_group_row] ++ keyword_rows ++ [ad_row]
       ∧ (Some <$> take 10 (keywords content)
          = (λ r : gmap string string, r !! "Keyword") <$> keyword_rows)
       ∧ campaign_row !! "Campaign type" = Some "Search"
       ∧ ad_group_row !! "Ad group status" = Some "Enabled"
       ∧ ad_row !! "Ad type" = Some "Responsive search ad"
       ∧ ad_row !! "Final URL"
           = Some (if startswith "http" website_url then website_url
                   else "https://" +:+ website_url)
       ∧ (∀ i, ad_row !! ("Headline " +:+ str_of_nat (S i))
               = str_take 30 <$> take 8 (headlines content) !! i)
       ∧ (∀ i, ad_row !! ("Description " +:+ str_of_nat (S i))
               = str_take 90 <$> take 2 (descriptions content) !! i))
  ∧ ∀ row, row ∈ rows → row !! "Row Type" = None.
Proof.
  cbv zeta. unfold generate_csv_rows. cbv zeta. split; [|split].
  - rewrite !length_app, length_fmap, length_take. simpl. lia.
  - do 4 eexists. split; [reflexivity|]. split.
    { rewrite <- list_fmap_compose. by apply list_fmap_ext. }
    split; [reflexivity|]. split; [reflexivity|]. unfold enumerate1.
    split; [|split; [|split]].
    + rewrite (numbered_column_frame "Description " "Ad type"
                 "D" "A" "escription " "d type") by done.
      by rewrite (numbered_column_frame "Headline " "Ad type"
                    "H" "A" "eadline " "d type") by done.
    + rewrite (numbered_column_frame "Description " "Final URL"
                 "D" "F" "escription " "inal URL") by done.
      by rewrite (numbered_column_frame "Headline " "Final URL"
                    "H" "F" "eadline " "inal URL") by done.
    + intros i.
      rewrite (numbered_column_frame "Description " _
                 "D" "H" "escription " ("eadline " +:+ str_of_nat (S i)))
        by done.
      rewrite numbered_column_lookup.
      destruct (decide (1 ≤ S i < 1 + length (take 8 (headlines content))))
        as [Hin|Hout].
      * by replace (S i - 1) with i by lia.
      * rewrite lookup_ge_None_2 by lia.
        rewrite !lookup_insert_ne by (rewrite app_String; discriminate).
        by rewrite lookup_singleton_ne by (rewrite app_String; discriminate).
    + intros i. rewrite numbered_column_lookup.
      destruct (decide (1 ≤ S i < 1 + length (take 2 (descriptions content))))
        as [Hin|Hout].
      * by replace (S i - 1) with i by lia.
      * rewrite lookup_ge_None_2 by lia.
        rewrite (numbered_column_frame "Headline " _
                   "H" "D" "eadline " ("escription " +:+ str_of_nat (S i)))
          by done.
        rewrite !lookup_insert_ne by (rewrite app_String; discriminate).
        by rewrite lookup_singleton_ne by (rewrite app_String; discriminate).
  - intros row [->|[->|Hrow]%elem_of_cons]%elem_of_cons; [reflexivity..|].
    apply elem_of_app in Hrow as [Hrow|Hrow%list_elem_of_singleton];
      [|subst row].
    + by apply list_elem_of_fmap in Hrow as (kw & -> & _).
    + rewrite (numbered_column_frame "Description " "Row Type"
                 "D" "R" "escription " "ow Type") by done.
      by rewrite (numbered_column_frame "Headline " "Row Type"
                    "H" "R" "eadline " "ow Type") by done.
Qed.

(** C5 at a site whose address begins with "http" and names no scheme.
    With two keywords and three headlines the assembler emits one
    campaign row, one ad-group row, two keyword rows and one ad row,
    none with a "Row Type" column, and the ad row has Headline 1-3 and no
    Headline 4-15.  Its final URL is the address as given, "httpbin.org",
    without a scheme; an address that does not begin with "http" gets
    "https://" in front. *)
Theorem final_url_of_http_named_host_has_no_scheme :
  let rows := Samples.studio_rows "httpbin.org" in
  length rows = 5
  ∧ Forall (λ row : gmap string string, row !! "Row Type" = None) rows
  ∧ (∃ ad_row,
       last rows = Some ad_row
       ∧ ad_row !! "Headline 1" = Some "Join Flow Studio Today"
       ∧ ad_row !! "Headline 2" = Some "Start Your Fitness Journey"
       ∧ ad_row !! "Headline 3" = Some "Transform Your Body Now"
       ∧ Forall (λ i, ad_row !! ("Headline " +:+ str_of_nat i) = None)
           (seq 4 12)
       ∧ ad_row !! "Final URL" = Some "httpbin.org")
  ∧ str_in "://" "httpbin.org" = false
  ∧ ∃ ad_row, last (Samples.studio_rows "flowstudio.example") = Some ad_row
      ∧ ad_row !! "Final URL" = Some "https://flowstudio.example".
Proof.
  cbv zeta. split; [reflexivity|]. split.
  - repeat constructor.
  - split; [|split; [reflexivity|]].
    + eexists. split; [reflexivity|]. repeat split. repeat constructor.
    + eexists. split; reflexivity.
Qed.

End BuildRows.

(** * More facts about the string primitives *)

Section StringFactsRest.
Import Py.

Lemma lstrip_head (t : string) (c : ascii) (u : string) :
  lstrip t = String c u → isspace c = false.
Proof.
  induction t as [|x t IH]; [done|]. simpl.
  destruct (isspace x) eqn:Hx; [done|]. by intros [= <- _].
Qed.

Lemma rstrip_head (t : string) (c : ascii) :
  isspace c = false → rstrip (String c t) = String c (rstrip t).
Proof. intros Hc. simpl. rewrite Hc. by destruct (rstrip t). Qed.

Lemma rstrip_idem (t : string) : rstrip (rstrip t) = rstrip t.
Proof.
  induction t as [|x t IH]; [done|]. simpl.
  destruct (rstrip t) as [|y u] eqn:Eu.
  - destruct (isspace x) eqn:Hx; [done|]. simpl. by rewrite Hx.
  - cbn [rstrip] in *. by rewrite IH.
Qed.

(** Stripping twice is stripping once. *)
Lemma strip_idem (t : string) : strip (strip t) = strip t.
Proof.
  unfold strip.
  assert (lstrip (rstrip (lstrip t)) = rstrip (lstrip t)) as ->;
    [|apply rstrip_idem].
  destruct (lstrip t) as [|c u] eqn:El; [done|].
  pose proof (lstrip_head _ _ _ El) as Hc.
  rewrite (rstrip_head u c Hc). simpl. by rewrite Hc.
Qed.

Lemma lower_char_idem (c : ascii) : lower_char (lower_char c) = lower_char c.
Proof. by destruct c as [[] [] [] [] [] [] [] []]. Qed.

(** Lowercasing twice is lowercasing once. *)
Lemma lower_idem (s : string) : lower (lower s) = lower s.
Proof.
  induction s as [|c s IH]; [done|]. simpl. by rewrite lower_char_idem, IH.
Qed.

Lemma str_app_assoc (a b c : string) : (a +:+ b) +:+ c = a +:+ b +:+ c.
Proof. induction a as [|x a IH]; [done|]. rewrite !app_String. by rewrite IH. Qed.

Lemma substring_of_trans (a b c : string) :
  substring_of a b → substring_of b c → substring_of a c.
Proof.
  intros (p1 & q1 & ->) (p2 & q2 & ->). exists (p2 +:+ p1), (q1 +:+ q2).
  induction p2 as [|x p2 IH]; simpl.
  - rewrite !app_empty_l. clear. induction p1 as [|x p1 IH]; simpl.
    + rewrite !app_empty_l. induction a as [|x a IH]; [done|].
      rewrite !app_String. by rewrite IH.
    + rewrite !app_String. by rewrite IH.
  - rewrite !app_String. by rewrite IH.
Qed.

End StringFactsRest.

(** * The records of a failure row *)

Section RowRecords.
Import Py ErrorParser ErrorParserRest Props Samples.

Lemma or_else_nonempty (a : option string) (b : string) :
  b ≠ "" → or_else a b ≠ "".
Proof.
  intros Hb. unfold or_else. destruct a as [s|]; [|done].
  by destruct (String.eqb_spec s "").
Qed.

Lemma str_take_nonempty (n : nat) (s : string) :
  s ≠ "" → str_take (S n) s ≠ "".
Proof. by destruct s. Qed.

(** The test both field extractors apply to column [i]. *)
Lemma extract_field_errors_elem (Col kind : string) (n : nat)
    (row : gmap string string) (error_text : string) (e : ParsedError) :
  e ∈ extract_field_errors Col kind n row error_text ↔
  ∃ i, 1 ≤ i ≤ n
       ∧ numbered_cell Col row i ≠ ""
       ∧ (str_in (lower (numbered_cell Col row i)) (lower error_text)
          || str_in (kind +:+ " " +:+ str_of_nat i) (lower error_text)
          || any_in general_words (lower error_text)) = true
       ∧ e = {| type := kind; value := numbered_cell Col row i;
                reason := _extract_reason error_text;
                original_error := error_text;
                row_type := "Responsive search ad" |}.
Proof.
  set (hit := λ i,
         str_in (lower (numbered_cell Col row i)) (lower error_text)
         || str_in (kind +:+ " " +:+ str_of_nat i) (lower error_text)
         || any_in general_words (lower error_text)).
  set (record := λ i,
         {| type := kind; value := numbered_cell Col row i;
            reason := _extract_reason error_text;
            original_error := error_text;
            row_type := "Responsive search ad" |}).
  change (extract_field_errors Col kind n row error_text)
    with (flat_map
            (λ i, if negb (truthy (numbered_cell Col row i)) then []
                  else if hit i then [record i] else [])
            (seq 1 n)).
  rewrite list_elem_of_In, in_flat_map. split.
  - intros (i & Hi & He). apply in_seq in Hi. exists i.
    destruct (truthy (numbered_cell Col row i)) eqn:Ht; [|done].
    destruct (hit i) eqn:Hc; [|done].
    apply truthy_true in Ht. destruct He as [<-|[]].
    repeat split; (done || lia).
  - intros (i & Hi & Hcell & Hc & ->). exists i. split; [apply in_seq; lia|].
    apply truthy_true in Hcell. rewrite Hcell. fold (hit i) in Hc.
    rewrite Hc. by left.
Qed.

(** The general-policy rule, for any numbered column. *)
Lemma general_rule_values (Col kind : string) (n : nat)
    (row : gmap string string) (error_text : string) :
  any_in general_words (lower error_text) = true →
  value <$> extract_field_errors Col kind n row error_text
  = filter (λ v, v ≠ "") (numbered_cell Col row <$> seq 1 n).
Proof.
  intros Hgen.
  set (hit := λ i,
         str_in (lower (numbered_cell Col row i)) (lower error_text)
         || str_in (kind +:+ " " +:+ str_of_nat i) (lower error_text)
         || any_in general_words (lower error_text)).
  set (record := λ i,
         {| type := kind; value := numbered_cell Col row i;
            reason := _extract_reason error_text;
            original_error := error_text;
            row_type := "Responsive search ad" |}).
  change (extract_field_errors Col kind n row error_text)
    with (flat_map
            (λ i, if negb (truthy (numbered_cell Col row i)) then []
                  else if hit i then [record i] else [])
            (seq 1 n)).
  assert (∀ i, hit i = true) as Hhit
    by (intros i; unfold hit; rewrite Hgen; apply orb_true_r).
  induction (seq 1 n) as [|i l IH]; [done|].
  cbn [flat_map]. rewrite fmap_app, IH, fmap_cons, filter_cons, Hhit.
  destruct (truthy (numbered_cell Col row i)) eqn:Ht.
  - apply truthy_true in Ht. by rewrite decide_True.
  - apply not_true_iff_false in Ht. rewrite truthy_true in Ht.
    by rewrite decide_False.
Qed.

(** When the rejection text holds one of the words policy, trademark,
    misleading, restricted, disapproved, rejected, every populated
    headline among Headline 1-15 and every populated description among
    Description 1-4 is attributed, in column order, whether or not the
    text names it. *)
Theorem general_rejection_attributes_every_field
    (row : gmap string string) (error_text : string) :
  any_in ["policy"; "trademark"; "misleading"; "restricted";
          "disapproved"; "rejected"] (lower error_text) = true →
  value <$> _extract_headline_errors row error_text
    = filter (λ v, v ≠ "") (numbered_cell "Headline" row <$> seq 1 15)
  ∧ value <$> _extract_description_errors row error_text
    = filter (λ v, v ≠ "") (numbered_cell "Description" row <$> seq 1 4).
Proof. intros Hgen. split; by apply general_rule_values. Qed.

Lemma general_rejection_attributes_every_field_witness :
  value <$> _extract_headline_errors ad_row "Policy violation: trademark"
  = ["Nike Shoes"; "Great Deals"].
Proof.
  destruct (general_rejection_attributes_every_field ad_row
              "Policy violation: trademark") as [H _]; [reflexivity|].
  exact H.
Defined.

(** Without one of the general words, a headline is attributed exactly
    when its column is populated and the rejection text contains, case
    apart, the headline itself or "headline" followed by its number. *)
Theorem specific_rejection_attributes_named_headlines
    (row : gmap string string) (error_text : string) (e : ParsedError) :
  any_in general_words (lower error_text) = false →
  (e ∈ _extract_headline_errors row error_text ↔
   ∃ i, 1 ≤ i ≤ 15
        ∧ numbered_cell "Headline" row i ≠ ""
        ∧ (substring_of (lower (numbered_cell "Headline" row i))
             (lower error_text)
           ∨ substring_of ("headline " +:+ str_of_nat i) (lower error_text))
        ∧ e = {| type := "headline";
                 value := numbered_cell "Headline" row i;
                 reason := _extract_reason error_text;
                 original_error := error_text;
                 row_type := "Responsive search ad" |}).
Proof.
  intros Hgen. unfold _extract_headline_errors.
  rewrite extract_field_errors_elem.
  split; intros (i & Hi & Hcell & Hhit & He); exists i;
    (split; [done|]); (split; [done|]); (split; [|done]).
  - rewrite Hgen, orb_false_r in Hhit.
    apply orb_true_iff in Hhit as [H|H]; apply str_in_spec in H; tauto.
  - rewrite Hgen, orb_false_r. apply orb_true_iff.
    rewrite !str_in_spec. tauto.
Qed.

Lemma specific_rejection_attributes_named_headlines_witness :
  type <$> _extract_headline_errors
             {[ "Headline 1" := "Yoga For All"; "Headline 2" := "Spin Class" ]}
             "Headline 2 is too long"
  = ["headline"]
  ∧ ∃ e, e ∈ _extract_headline_errors
               {[ "Headline 1" := "Yoga For All"; "Headline 2" := "Spin Class" ]}
               "Headline 2 is too long"
         ∧ value e = "Spin Class".
Proof.
  split; [reflexivity|]. eexists. split.
  - apply specific_rejection_attributes_named_headlines; [reflexivity|].
    exists 2. split; [lia|]. split; [vm_compute; discriminate|].
    split; [|reflexivity]. right. by exists "", " is too long".
  - reflexivity.
Defined.

(** A rejection text that names one of Headline 10-15 also attributes
    Headline 1 when it is populated, because "headline 1" occurs in
    "headline 10", ..., "headline 15". *)
Theorem two_digit_headline_number_attributes_headline_1
    (row : gmap string string) (error_text : string) (j : nat) :
  10 ≤ j ≤ 15 →
  numbered_cell "Headline" row 1 ≠ "" →
  str_in ("headline " +:+ str_of_nat j) (lower error_text) = true →
  ∃ e, e ∈ _extract_headline_errors row error_text
       ∧ type e = "headline"
       ∧ value e = numbered_cell "Headline" row 1.
Proof.
  intros Hj Hcell Hin.
  exists {| type := "headline"; value := numbered_cell "Headline" row 1;
            reason := _extract_reason error_text;
            original_error := error_text;
            row_type := "Responsive search ad" |}.
  split; [|by split].
  apply extract_field_errors_elem. exists 1.
  split; [lia|]. split; [done|]. split; [|reflexivity].
  apply orb_true_iff. left. apply orb_true_iff. right.
  apply str_in_spec. apply str_in_spec in Hin.
  eapply substring_of_trans; [|exact Hin].
  assert (j = 10 ∨ j = 11 ∨ j = 12 ∨ j = 13 ∨ j = 14 ∨ j = 15)
    as [->|[->|[->|[->|[->| ->]]]]] by lia.
  - by exists "", "0".
  - by exists "", "1".
  - by exists "", "2".
  - by exists "", "3".
  - by exists "", "4".
  - by exists "", "5".
Qed.

Lemma two_digit_headline_number_attributes_headline_1_witness :
  ∃ e, e ∈ _extract_headline_errors
             {[ "Headline 1" := "Yoga For All"; "Headline 12" := "Spin Class" ]}
             "Headline 12 is too long"
       ∧ type e = "headline" ∧ value e = "Yoga For All".
Proof.
  destruct (two_digit_headline_number_attributes_headline_1
              {[ "Headline 1" := "Yoga For All"; "Headline 12" := "Spin Class" ]}
              "Headline 12 is too long" 12) as (e & He & Ht & Hv).
  - lia.
  - vm_compute. discriminate.
  - reflexivity.
  - exists e. split; [exact He|]. split; [exact Ht|]. exact Hv.
Defined.

End RowRecords.

(** * What a report holds *)

Section ReportRecords.
Import Py ErrorParser ErrorParserRest Props Samples.

Lemma elem_of_record_types (t : string) :
  bool_decide (t ∈ record_types) = true → t ∈ record_types.
Proof. apply bool_decide_eq_true. Qed.

(** Every record of a failure row carries the row's error text, the
    reason drawn from it, one of the seven types and a value that is not
    empty. *)
Lemma row_errors_wellformed (row : gmap string string)
    (error_text : string) (e : ParsedError) :
  error_text ≠ "" →
  e ∈ row_errors row error_text →
  type e ∈ record_types ∧ value e ≠ ""
  ∧ original_error e = error_text
  ∧ reason e = _extract_reason error_text.
Proof.
  intros Htext. unfold row_errors. cbv zeta.
  fold (declared_row_type row). fold (keyword_cell row).
  fold _extract_headline_errors. unfold _extract_headline_errors,
    _extract_description_errors.
  destruct (in_tuple (lower (declared_row_type row)) ["keyword"; "keywords"]).
  { destruct (truthy (keyword_cell row)) eqn:Hk;
      [|intros H; by apply elem_of_nil in H].
    intros ->%list_elem_of_singleton. apply truthy_true in Hk.
    repeat split; try done. by apply elem_of_record_types. }
  destruct (in_tuple (lower (declared_row_type row))
              ["responsive search ad"; "ad"; "text ad"]).
  { intros [He|[He|He]%elem_of_app]%elem_of_app.
    - apply extract_field_errors_elem in He as (i & _ & Hc & _ & ->).
      repeat split; try done. by apply elem_of_record_types.
    - apply extract_field_errors_elem in He as (i & _ & Hc & _ & ->).
      repeat split; try done. by apply elem_of_record_types.
    - destruct (extract_field_errors "Headline" "headline" 15 row error_text);
        [|by apply elem_of_nil in He].
      destruct (extract_field_errors "Description" "description" 4 row
                  error_text); [|by apply elem_of_nil in He].
      apply list_elem_of_singleton in He as ->.
      repeat split; try done. by apply elem_of_record_types. }
  destruct (in_tuple (lower (declared_row_type row)) ["campaign"]).
  { intros ->%list_elem_of_singleton.
    repeat split; try done; [by apply elem_of_record_types|].
    by apply or_else_nonempty. }
  destruct (in_tuple (lower (declared_row_type row)) ["ad group"; "ad_group"]).
  { intros ->%list_elem_of_singleton.
    repeat split; try done; [by apply elem_of_record_types|].
    by apply or_else_nonempty. }
  destruct (truthy (keyword_cell row)) eqn:Hk.
  - intros ->%list_elem_of_singleton. apply truthy_true in Hk.
    repeat split; try done. by apply elem_of_record_types.
  - intros ->%list_elem_of_singleton.
    repeat split; try done; [by apply elem_of_record_types|].
    by apply str_take_nonempty.
Qed.

Lemma elem_of_flat_map {A B : Type} (f : A → list B) (l : list A) (y : B) :
  y ∈ flat_map f l ↔ ∃ x, x ∈ l ∧ y ∈ f x.
Proof.
  rewrite list_elem_of_In, in_flat_map. split; intros (x & Hx & Hy); exists x.
  - by rewrite !list_elem_of_In.
  - by rewrite <- !list_elem_of_In.
Qed.

(** Every record of a report comes from a row whose stripped error text
    is not empty and passes [_is_error_row]: the record keeps that text
    as [original_error], its [reason] is [_extract_reason] of it, its
    [type] is one of keyword, headline, description, ad, campaign,
    ad_group, other, and its [value] is never empty. *)
Theorem parsed_records_wellformed (fs : FileSystem) (filepath : string)
    (r : ParseResult) (e : ParsedError) :
  parse_error_csv fs filepath = inr r →
  e ∈ errors r →
  type e ∈ record_types
  ∧ value e ≠ ""
  ∧ original_error e ≠ ""
  ∧ strip (original_error e) = original_error e
  ∧ _is_error_row (original_error e) = true
  ∧ reason e = _extract_reason (original_error e).
Proof.
  intros Hr He. destruct (parse_accepts _ _ _ Hr) as [f Hf].
  destruct (parse_existing _ _ _ Hf) as (r' & Hr' & Herr & _).
  rewrite Hr in Hr'. injection Hr' as <-.
  rewrite Herr in He. apply elem_of_flat_map in He as (row & _ & He).
  unfold row_records in He.
  destruct (row_fails (_find_error_column (fieldnames f)) row) eqn:Hfail;
    [|by apply elem_of_nil in He].
  unfold row_fails in Hfail. cbv zeta in Hfail.
  apply andb_true_iff in Hfail as [Ht Herror]. apply truthy_true in Ht.
  destruct (row_errors_wellformed _ _ _ Ht He) as (H1 & H2 & H3 & H4).
  rewrite H3, H4. repeat split; try done.
  destruct (row_error_text_stripped (_find_error_column (fieldnames f)) row)
    as [E|[s E]]; [done|].
  rewrite E. apply strip_idem.
Qed.

Lemma parsed_records_wellformed_witness :
  ∃ r e, parse_error_csv upload_fs "/tmp/upload.csv" = inr r
    ∧ e ∈ errors r
    ∧ type e ∈ record_types ∧ value e = "gym"
    ∧ reason e = _extract_reason (original_error e).
Proof.
  eexists. exists {| type := "keyword"; value := "gym";
                     reason := "Policy violation";
                     original_error := "Policy violation";
                     row_type := "Keyword" |}.
  split; [vm_compute; reflexivity|].
  assert ({| type := "keyword"; value := "gym"; reason := "Policy violation";
             original_error := "Policy violation"; row_type := "Keyword" |}
          ∈ [ {| type := "keyword"; value := "gym";
                 reason := "Policy violation";
                 original_error := "Policy violation";
                 row_type := "Keyword" |};
              {| type := "headline"; value := "Nike Shoes";
                 reason := "Policy violation: trademark";
                 original_error := "Policy violation: trademark";
                 row_type := "Responsive search ad" |};
              {| type := "headline"; value := "Great Deals";
                 reason := "Policy violation: trademark";
                 original_error := "Policy violation: trademark";
                 row_type := "Responsive search ad" |} ]) as Hin
    by (apply elem_of_cons; by left).
  split; [exact Hin|].
  destruct (parsed_records_wellformed upload_fs "/tmp/upload.csv" _ _
              eq_refl Hin) as (Ht & _ & _ & _ & _ & Hr).
  split; [exact Ht|]. split; [reflexivity|]. exact Hr.
Defined.

(** A failure row adds no record exactly when it is declared as a keyword
    row ("keyword" or "keywords", case apart) and its keyword cell is
    blank; every other failure row adds at least one record. *)
Theorem silent_failure_row_is_blank_keyword_row (error_col : option string)
    (has_row_type : bool) (st : Loop) (row : gmap string string) :
  row_fails error_col row = true →
  (all_errors (process_row error_col has_row_type st row) = all_errors st ↔
   in_tuple (lower (declared_row_type row)) ["keyword"; "keywords"] = true
   ∧ keyword_cell row = "").
Proof.
  intros Hfail. rewrite process_row_unfold, Hfail. cbn [all_errors].
  set (text := row_error_text error_col row).
  assert (all_errors st ++ row_errors row text = all_errors st
          ↔ row_errors row text = []) as ->.
  { split; [|intros ->; apply app_nil_r].
    intros H. apply (f_equal length) in H. rewrite length_app in H.
    destruct (row_errors row text); [done | simpl in H; lia]. }
  unfold row_errors. cbv zeta.
  fold (declared_row_type row). fold (keyword_cell row).
  destruct (in_tuple (lower (declared_row_type row)) ["keyword"; "keywords"]).
  { destruct (truthy (keyword_cell row)) eqn:Hk.
    - apply truthy_true in Hk. split; [done | by intros [_ ?]].
    - apply not_true_iff_false in Hk. rewrite truthy_true in Hk.
      split; [intros _; split; [done|] | done].
      by destruct (decide (keyword_cell row = "")). }
  split; [|by intros [? _]].
  destruct (in_tuple (lower (declared_row_type row))
              ["responsive search ad"; "ad"; "text ad"]).
  { destruct (_extract_headline_errors row text); [|done].
    by destruct (_extract_description_errors row text). }
  destruct (in_tuple (lower (declared_row_type row)) ["campaign"]); [done|].
  destruct (in_tuple (lower (declared_row_type row)) ["ad group"; "ad_group"]);
    [done|].
  by destruct (truthy (keyword_cell row)).
Qed.

Lemma silent_failure_row_is_blank_keyword_row_witness :
  let st0 := {| all_errors := []; n_total := 0; n_error := 0; n_success := 0 |} in
  all_errors (process_row (Some "Results") true st0 blank_keyword_row) = []
  ∧ all_errors (process_row (Some "Results") true st0 note_row) ≠ [].
Proof.
  intros st0. split.
  - apply (silent_failure_row_is_blank_keyword_row (Some "Results") true st0
             blank_keyword_row); [reflexivity|]. by split.
  - intros H.
    apply (silent_failure_row_is_blank_keyword_row (Some "Results") true st0
             note_row) in H as [_ H]; [|reflexivity].
    vm_compute in H. discriminate H.
Defined.

(** The flag [has_row_type] never changes what the loop computes: a row
    without error text is a success whether or not the file has a
    "Row Type" column. *)
Theorem row_type_column_never_consulted (error_col : option string)
    (st : Loop) (rs : list (gmap string string)) :
  foldl (process_row error_col true) st rs
  = foldl (process_row error_col false) st rs
  ∧ ∀ row, row_error_text error_col row = "" →
           counted_success st (process_row error_col true st row).
Proof.
  split.
  - revert st. induction rs as [|row rs IH]; intros st; [done|].
    simpl. rewrite IH. f_equal. by rewrite !process_row_unfold.
  - intros row Htext. apply process_row_success.
    unfold row_fails. by rewrite Htext.
Qed.

Lemma row_type_column_never_consulted_witness :
  let st0 := {| all_errors := []; n_total := 0; n_error := 0; n_success := 0 |} in
  counted_success st0
    (process_row None true st0 {[ "Row Type" := "Keyword"; "Keyword" := "gym" ]}).
Proof.
  intros st0.
  destruct (row_type_column_never_consulted None st0 []) as [_ H].
  apply H. reflexivity.
Defined.

(** Parsing is row by row: the report of a file whose rows are those of
    two files with the same header, one after the other, has the
    records of the first followed by those of the second, and each
    counter and each of the four lists is the sum or the concatenation
    of the two. *)
Theorem parse_of_appended_rows (fs : FileSystem) (p1 p2 p : string)
    (header : list string) (rows1 rows2 : list (gmap string string))
    (r1 r2 r : ParseResult) :
  fs p1 = Some {| fieldnames := header; rows := rows1 |} →
  fs p2 = Some {| fieldnames := header; rows := rows2 |} →
  fs p = Some {| fieldnames := header; rows := rows1 ++ rows2 |} →
  parse_error_csv fs p1 = inr r1 →
  parse_error_csv fs p2 = inr r2 →
  parse_error_csv fs p = inr r →
  errors r = errors r1 ++ errors r2
  ∧ total_rows r = total_rows r1 + total_rows r2
  ∧ error_rows r = error_rows r1 + error_rows r2
  ∧ success_rows r = success_rows r1 + success_rows r2
  ∧ keywords r = keywords r1 ++ keywords r2
  ∧ headlines r = headlines r1 ++ headlines r2
  ∧ descriptions r = descriptions r1 ++ descriptions r2
  ∧ other_errors r = other_errors r1 ++ other_errors r2.
Proof.
  intros Hf1 Hf2 Hf Hr1 Hr2 Hr.
  destruct (parse_existing _ _ _ Hf1)
    as (r1' & E1 & He1 & Ht1 & Hn1 & Hs1 & Hk1 & Hh1 & Hd1 & Ho1).
  destruct (parse_existing _ _ _ Hf2)
    as (r2' & E2 & He2 & Ht2 & Hn2 & Hs2 & Hk2 & Hh2 & Hd2 & Ho2).
  destruct (parse_existing _ _ _ Hf)
    as (r' & E & He & Ht & Hn & Hs & Hk & Hh & Hd & Ho).
  rewrite Hr1 in E1. injection E1 as <-.
  rewrite Hr2 in E2. injection E2 as <-.
  rewrite Hr in E. injection E as <-.
  simpl in *.
  assert (errors r = errors r1 ++ errors r2) as Herr
    by (by rewrite He, He1, He2, flat_map_app).
  rewrite Hk, Hh, Hd, Ho, Hk1, Hh1, Hd1, Ho1, Hk2, Hh2, Hd2, Ho2, Herr.
  rewrite Ht, Hn, Hs, Ht1, Hn1, Hs1, Ht2, Hn2, Hs2.
  rewrite !List.filter_app, !length_app. done.
Qed.

Lemma parse_of_appended_rows_witness :
  ∃ r1 r2 r,
    parse_error_csv SamplesRest.split_fs "/tmp/first.csv" = inr r1
    ∧ parse_error_csv SamplesRest.split_fs "/tmp/second.csv" = inr r2
    ∧ parse_error_csv SamplesRest.split_fs "/tmp/whole.csv" = inr r
    ∧ errors r = errors r1 ++ errors r2
    ∧ error_rows r = error_rows r1 + error_rows r2.
Proof.
  do 3 eexists.
  split; [vm_compute; reflexivity|].
  split; [vm_compute; reflexivity|].
  split; [vm_compute; reflexivity|].
  match goal with |- errors ?r = errors ?r1 ++ errors ?r2 ∧ _ =>
    destruct (parse_of_appended_rows SamplesRest.split_fs
                "/tmp/first.csv" "/tmp/second.csv" "/tmp/whole.csv"
                results_header [created_row] [keyword_row; ad_row] r1 r2 r)
      as (He & _ & Hn & _)
  end; try reflexivity.
  split; [exact He | exact Hn].
Defined.

End ReportRecords.

(** * Reasons, the classifier and the header resolver *)

Section ClassifierRest.
Import Py ErrorParser ErrorParserRest Props Samples.

(** The reason is a tail of the stripped error text, cut to 200
    characters and "..." when that tail is longer; without ": " in the
    text the tail is the whole stripped text. *)
Theorem reason_is_tail_of_text (error_text : string) :
  ∃ pre kept,
    strip error_text = pre +:+ kept
    ∧ _extract_reason error_text
        = (if 200 <? len kept then str_take 200 kept +:+ "..." else kept)
    ∧ (str_in ": " (strip error_text) = false → pre = "")
    ∧ (len (strip error_text) ≤ 200 → _extract_reason error_text = kept).
Proof.
  destruct (_extract_reason_segment error_text)
    as (kept & Hr & [[Hno ->]|(head & tail & Htext & ->)]).
  - exists "", (strip error_text). rewrite app_empty_l.
    repeat split; try done.
    intros Hle. rewrite Hr. by destruct (Nat.ltb_spec 200 (len (strip error_text)));
      [lia|].
  - destruct (Nat.ltb_spec 10 (len tail)) as [Hlong|Hshort].
    + exists (head +:+ ": "), tail. split.
      { by rewrite Htext, str_app_assoc. }
      split; [done|]. split.
      * intros Hno. assert (str_in ": " (strip error_text) = true) as Hyes
          by (apply str_in_spec; by exists head, tail).
        congruence.
      * intros Hle. rewrite Hr. rewrite Htext, !len_app in Hle.
        by destruct (Nat.ltb_spec 200 (len tail)); [lia|].
    + exists "", (strip error_text). rewrite app_empty_l.
      repeat split; try done.
      intros Hle. rewrite Hr.
      by destruct (Nat.ltb_spec 200 (len (strip error_text))); [lia|].
Qed.

Lemma reason_is_tail_of_text_witness :
  _extract_reason "  Keyword rejected  " = "Keyword rejected".
Proof.
  destruct (reason_is_tail_of_text "  Keyword rejected  ")
    as (pre & kept & Htext & _ & Hpre & Hshort).
  rewrite (Hpre eq_refl), app_empty_l in Htext.
  rewrite Hshort; [by rewrite <- Htext | vm_compute; lia].
Defined.

(** The reason is empty only when the error text is blank. *)
Theorem reason_empty_iff_text_blank (error_text : string) :
  _extract_reason error_text = "" ↔ strip error_text = "".
Proof.
  split.
  - destruct (_extract_reason_segment error_text) as (kept & -> & Hkept).
    destruct (Nat.ltb_spec 200 (len kept)) as [Hlong|_].
    + intros H. apply (f_equal len) in H. rewrite len_app in H.
      simpl in H. lia.
    + intros ->. destruct Hkept as [[_ <-]|(head & tail & _ & Hk)]; [done|].
      destruct (Nat.ltb_spec 10 (len tail)) as [Hlong|_]; [|done].
      subst tail. simpl in Hlong. lia.
  - intros H. unfold _extract_reason. cbv zeta. by rewrite H.
Qed.

(** A text that holds, case apart, one of the words error, rejected,
    disapproved, violation is a failure, whatever else it says. *)
Theorem hard_failure_word_always_fails (error_text w : string) :
  w ∈ ["error"; "rejected"; "disapproved"; "violation"] →
  substring_of w (lower error_text) →
  _is_error_row error_text = true.
Proof.
  intros Hw Hsub. apply str_in_spec in Hsub.
  rewrite _is_error_row_unfold. cbv zeta.
  assert (any_in hard_failures (lower error_text) = true) as Hhard.
  { apply existsb_exists. exists w. by rewrite <- list_elem_of_In. }
  assert (any_in ERROR_INDICATORS (lower error_text) = true) as Herr.
  { apply existsb_exists. exists w. split; [|done].
    apply list_elem_of_In.
    repeat (apply elem_of_cons in Hw as [->|Hw];
            [apply (bool_decide_unpack _); vm_compute; exact I|]).
    by apply elem_of_nil in Hw. }
  unfold success_signal. by rewrite Hhard, andb_false_r, Herr.
Qed.

Lemma hard_failure_word_always_fails_witness :
  _is_error_row "Successfully created, then REJECTED" = true.
Proof.
  apply (hard_failure_word_always_fails _ "rejected").
  - apply elem_of_cons, or_intror, elem_of_cons. by left.
  - by exists "successfully created, then ", "".
Defined.

(** "not eligible" is listed as an error indicator, but it contains the
    success indicator "eligible": a text that holds it and none of the
    words error, rejected, disapproved, violation is taken for a
    success. *)
Theorem not_eligible_is_taken_for_success (error_text : string) :
  substring_of "not eligible" (lower error_text) →
  any_in ["error"; "rejected"; "disapproved"; "violation"]
    (lower error_text) = false →
  "not eligible" ∈ ERROR_INDICATORS ∧ _is_error_row error_text = false.
Proof.
  intros Hsub Hhard. split.
  { apply (bool_decide_unpack _). vm_compute. exact I. }
  rewrite _is_error_row_unfold. cbv zeta. unfold success_signal.
  fold hard_failures in Hhard. rewrite Hhard.
  assert (any_in SUCCESS_INDICATORS (lower error_text) = true) as ->; [|done].
  apply existsb_exists. exists "eligible". split.
  - apply list_elem_of_In.
    apply (bool_decide_unpack _). vm_compute. exact I.
  - apply str_in_spec. eapply substring_of_trans; [|exact Hsub].
    by exists "not ", "".
Qed.

Lemma not_eligible_is_taken_for_success_witness :
  _is_error_row "Ad group not eligible to serve" = false.
Proof.
  apply (not_eligible_is_taken_for_success "Ad group not eligible to serve").
  - by exists "ad group ", " to serve".
  - reflexivity.
Defined.

End ClassifierRest.

(** * Headers and delimiters *)

Section HeadersRest.
Import Py ErrorParser ErrorParserRest Props Samples.

(** The column [_find_error_column] returns is one of the headers it was
    given, and its normalized form is a priority word or contains one of
    the fallback words; an empty header yields no column. *)
Theorem resolved_column_is_a_header (headers : list string) (h : string) :
  _find_error_column headers = Some h →
  h ∈ headers
  ∧ (_normalize_header h ∈ priority
     ∨ any_in fallback_words (_normalize_header h) = true).
Proof.
  unfold _find_error_column. cbv zeta.
  destruct (first_some (λ key, odict_get key (normalized_headers headers))
              priority) as [orig|] eqn:E.
  - intros [= ->].
    apply first_some_Some in E as (pre & key & post & Hp & _ & Hget).
    apply normalized_get_Some in Hget as [Hin Hn]. split; [done|]. left.
    rewrite Hn, Hp. apply elem_of_app, or_intror, elem_of_cons. by left.
  - intros (pre & [norm orig] & post & Hl & _ & Hg)%first_some_Some.
    destruct (any_in fallback_words norm) eqn:Hw; [|discriminate Hg].
    injection Hg as ->.
    assert ((norm, h) ∈ normalized_headers headers) as Hin.
    { rewrite Hl. apply elem_of_app, or_intror, elem_of_cons. by left. }
    apply normalized_elem in Hin as [? <-]. split; [done | by right].
Qed.

Lemma resolved_column_is_a_header_witness :
  "Results" ∈ results_header.
Proof.
  apply (resolved_column_is_a_header results_header "Results"). reflexivity.
Defined.

(** Two headers with the same normalized form share one entry of the
    dict, and the later one is kept: when the last header matches a
    priority word that no earlier priority word beats, it is the column
    returned, whatever stands before it. *)
Theorem last_matching_header_wins (headers : list string) (h : string)
    (pre post : list string) :
  priority = pre ++ _normalize_header h :: post →
  (∀ k, k ∈ pre → ¬ exact_match (headers ++ [h]) k) →
  _find_error_column (headers ++ [h]) = Some h.
Proof.
  intros Hp Hpre. unfold _find_error_column. cbv zeta.
  assert (first_some
            (λ key, odict_get key (normalized_headers (headers ++ [h])))
            priority = Some h) as ->; [|done].
  apply first_some_Some. exists pre, (_normalize_header h), post.
  split; [done|]. split.
  - intros k Hk. by apply priority_get_None, Hpre.
  - rewrite normalized_headers_snoc, odict_get_set.
    by rewrite String.eqb_refl.
Qed.

Lemma last_matching_header_wins_witness :
  _find_error_column (["Result"; "Keyword"] ++ [" RESULT "]) = Some " RESULT ".
Proof.
  apply (last_matching_header_wins ["Result"; "Keyword"] " RESULT "
           ["results"]
           ["error"; "error_details"; "comment"; "validation_error";
            "policy"; "status"]).
  - reflexivity.
  - intros k ->%list_elem_of_singleton (x & Hin & Hn).
    repeat (apply elem_of_cons in Hin as [->|Hin]; [discriminate Hn|]).
    by apply elem_of_nil in Hin.
Defined.

Lemma lstrip_lower (s : string) : lstrip (lower s) = lower (lstrip s).
Proof.
  induction s as [|c s IH]; [done|]. simpl. rewrite isspace_lower_char.
  by destruct (isspace c).
Qed.

Lemma rstrip_lower (s : string) : rstrip (lower s) = lower (rstrip s).
Proof.
  induction s as [|c s IH]; [done|]. simpl. rewrite IH, isspace_lower_char.
  destruct (rstrip s); simpl; [by destruct (isspace c) | done].
Qed.

Lemma strip_lower (s : string) : strip (lower s) = lower (strip s).
Proof. unfold strip. by rewrite lstrip_lower, rstrip_lower. Qed.

Lemma replace_char_removes (c new : ascii) (s : string) :
  new ≠ c → str_in (String c "") (replace_char c new s) = false.
Proof.
  intros Hne. induction s as [|a s IH]; [done|]. simpl. rewrite IH.
  destruct (Ascii.eqb_spec a c) as [->|Hac].
  - by destruct (Ascii.eqb_spec c new) as [->|].
  - by destruct (Ascii.eqb_spec c a) as [->|].
Qed.

Lemma replace_char_adds_none (c old new : ascii) (s : string) :
  new ≠ c → str_in (String c "") s = false →
  str_in (String c "") (replace_char old new s) = false.
Proof.
  intros Hne. induction s as [|a s IH]; [done|]. simpl.
  intros [Ha Hs]%orb_false_iff. rewrite (IH Hs), orb_false_r.
  destruct (Ascii.eqb_spec a old) as [->|_]; [|done].
  by destruct (Ascii.eqb_spec c new) as [->|].
Qed.

(** Header matching ignores letter case and surrounding blanks, and a
    normalized header holds neither a space nor a hyphen. *)
Theorem normalize_header_insensitive (header : string) :
  _normalize_header (lower header) = _normalize_header header
  ∧ _normalize_header (strip header) = _normalize_header header
  ∧ str_in " " (_normalize_header header) = false
  ∧ str_in "-" (_normalize_header header) = false.
Proof.
  unfold _normalize_header. repeat split.
  - by rewrite strip_lower, lower_idem.
  - by rewrite strip_idem.
  - apply replace_char_adds_none; [done|]. by apply replace_char_removes.
  - by apply replace_char_removes.
Qed.

(** The delimiter returned occurs in the first 2048 characters at least
    as often as each of the other two candidates; text without a comma,
    a semicolon or a tab, the empty file included, gets the comma. *)
Theorem detected_delimiter_is_most_frequent (content : string) :
  let sample := str_take 2048 content in
  let d := _detect_delimiter content in
  d ∈ [","; ";"; "009"]%char
  ∧ (∀ c, c ∈ [","; ";"; "009"]%char →
          count_char c sample ≤ count_char d sample)
  ∧ (count_char "," sample = 0 → count_char ";" sample = 0 →
     count_char "009" sample = 0 → d = ","%char).
Proof.
  cbv zeta. unfold _detect_delimiter. cbv zeta.
  set (sample := str_take 2048 content).
  destruct (Nat.ltb_spec (count_char "," sample) (count_char "009" sample));
    destruct (Nat.ltb_spec (count_char ";" sample) (count_char "009" sample));
    destruct (Nat.ltb_spec (count_char "," sample) (count_char ";" sample));
    cbn [andb].
  all: split; [apply (bool_decide_unpack _); vm_compute; exact I|].
  all: split; [|intros; lia || done].
  all: intros c Hc;
    repeat (apply elem_of_cons in Hc as [->|Hc]; [lia|]);
    by apply elem_of_nil in Hc.
Qed.

Lemma detected_delimiter_is_most_frequent_witness :
  _detect_delimiter "Row Type;Keyword;Results" = ";"%char
  ∧ _detect_delimiter "" = ","%char.
Proof.
  split; [reflexivity|].
  destruct (detected_delimiter_is_most_frequent "") as (_ & _ & H).
  apply H; reflexivity.
Defined.

End HeadersRest.

(** * From the report to the batch *)

Section ReportToBatch.
Import Py ErrorParser ErrorParserRest Props Samples.

Lemma first_occurrences_nil_iff {A K : Type} `{EqDecision K}
    (key : A → K) (l : list A) :
  first_occurrences key l = [] ↔ l = [].
Proof. by destruct l. Qed.

Lemma filter_all {A : Type} (P : A → Prop) `{∀ x, Decision (P x)}
    (l : list A) :
  (∀ x, x ∈ l → P x) → filter P l = l.
Proof.
  induction l as [|x l IH]; intros Hall; [done|].
  rewrite filter_cons_True by (apply Hall, elem_of_cons; by left).
  f_equal. apply IH. intros y Hy. apply Hall. by apply elem_of_cons, or_intror.
Qed.

Lemma first_occurrences_NoDup_id {A K : Type} `{EqDecision K}
    (key : A → K) (l : list A) :
  NoDup (key <$> l) → first_occurrences key l = l.
Proof.
  induction l as [|x l IH]; [done|]. simpl.
  intros [Hx Hnd]%NoDup_cons. rewrite (IH Hnd). f_equal.
  apply filter_all. intros y Hy E. apply Hx. rewrite <- E.
  apply list_elem_of_fmap. by exists y.
Qed.

(** For a report of [parse_error_csv], the batch of
    [errors_to_submission] has at most as many items as the count the
    caller announces (keywords + headlines + descriptions), as many when
    no key (type, lowercased value) repeats, and it is empty exactly
    when that count is zero, that is when the caller leaves the submit
    button disabled. *)
Theorem batch_size_against_announced_count (fs : FileSystem)
    (filepath action : string) (r : ParseResult) :
  parse_error_csv fs filepath = inr r →
  length (errors_to_submission r action) ≤ total_to_ban r
  ∧ (errors_to_submission r action = [] ↔ submit_enabled r = false)
  ∧ (NoDup (dedup_key <$> List.filter eligible (errors r)) →
     length (errors_to_submission r action) = total_to_ban r).
Proof.
  intros Hr. destruct (parse_accepts _ _ _ Hr) as [f Hf].
  destruct (parse_existing _ _ _ Hf)
    as (r' & Hr' & _ & _ & _ & _ & Hk & Hh & Hd & Ho).
  rewrite Hr in Hr'. injection Hr' as <-.
  assert (total_to_ban r = length (List.filter eligible (errors r))) as Htot.
  { unfold total_to_ban. rewrite Hk, Hh, Hd.
    pose proof (classification_lengths (errors r)) as Hc.
    pose proof (filter_split_length eligible (errors r)) as Hs.
    unfold eligible in *. lia. }
  unfold errors_to_submission.
  destruct (submit_loop action (errors r)) as [-> _].
  rewrite length_fmap, Htot. split; [|split].
  - apply sublist_length, first_occurrences_sublist.
  - unfold submit_enabled. rewrite Htot, Nat.ltb_ge.
    destruct (List.filter eligible (errors r)); simpl; split; (done || lia).
  - intros Hnd. by rewrite first_occurrences_NoDup_id.
Qed.

Lemma batch_size_against_announced_count_witness :
  ∃ r, parse_error_csv upload_fs "/tmp/upload.csv" = inr r
    ∧ total_to_ban r = 3
    ∧ length (errors_to_submission r "auto_ban") ≤ total_to_ban r.
Proof.
  eexists. split; [vm_compute; reflexivity|]. split; [reflexivity|].
  match goal with |- length (errors_to_submission ?r _) ≤ _ =>
    destruct (batch_size_against_announced_count upload_fs "/tmp/upload.csv"
                "auto_ban" r eq_refl) as [H _] end.
  exact H.
Defined.

End ReportToBatch.

(** * Filtering and validation in the generator *)

Section GeneratorFilters.
Import Py Generator GeneratorRest Props.

Lemma bool_filter_partition {A : Type} (f : A → bool) (l : list A) :
  List.filter (λ x, negb (f x)) l ++ List.filter f l ≡ₚ l.
Proof.
  induction l as [|x l IH]; [done|]. simpl. destruct (f x); simpl.
  - rewrite <- Permutation_middle. by constructor.
  - by constructor.
Qed.

Lemma str_in_empty (s : string) : str_in "" s = true.
Proof. by destruct s. Qed.

(** [filter_keywords] only sorts: the kept and the removed keywords
    together are the input, each keyword as often as it came, and with an
    empty deny-list everything is kept. *)
Theorem filter_keywords_partitions (keywords banned : list string) :
  (filter_keywords keywords banned).1 ++ (filter_keywords keywords banned).2
    ≡ₚ keywords
  ∧ length (filter_keywords keywords banned).1
    + length (filter_keywords keywords banned).2 = length keywords
  ∧ filter_keywords keywords [] = (keywords, []).
Proof.
  rewrite !filter_keywords_unfold. cbn [fst snd fmap list_fmap].
  split; [apply bool_filter_partition|]. split.
  - rewrite <- length_app. apply Permutation_length, bool_filter_partition.
  - assert (∀ kw, is_banned [] kw = false) as Hnone by done.
    f_equal; induction keywords as [|kw l IH]; [done| |done|];
      cbn [List.filter]; rewrite Hnone; cbn [negb]; by rewrite ?IH.
Qed.

(** An empty string in the deny-list removes every keyword, and a blank
    keyword is removed by every deny-list that is not empty: the empty
    string occurs in every string. *)
Theorem empty_strings_match_everything (keywords banned : list string) :
  ("" ∈ banned → filter_keywords keywords banned = ([], keywords))
  ∧ (∀ kw, kw ∈ keywords → strip (lower kw) = "" → banned ≠ [] →
           kw ∈ (filter_keywords keywords banned).2).
Proof.
  rewrite filter_keywords_unfold. split.
  - intros Hin.
    assert (∀ kw, is_banned (lower <$> banned) kw = true) as Hall.
    { intros kw. unfold is_banned. cbv zeta. apply existsb_exists.
      exists "". split.
      - apply list_elem_of_In, list_elem_of_fmap. by exists "".
      - by rewrite str_in_empty. }
    f_equal; induction keywords as [|kw l IH]; simpl; rewrite ?Hall; simpl;
      by rewrite ?IH.
  - intros kw Hkw Hblank Hne. cbn [snd].
    apply list_elem_of_In, List.filter_In. split; [by apply list_elem_of_In|].
    unfold is_banned. cbv zeta. rewrite Hblank.
    destruct banned as [|b bs]; [done|]. simpl.
    by rewrite str_in_empty, orb_true_r.
Qed.

Lemma empty_strings_match_everything_witness :
  filter_keywords ["yoga"; "spin class"] ["gym"; ""] = ([], ["yoga"; "spin class"])
  ∧ "  " ∈ (filter_keywords ["yoga"; "  "] ["gym"]).2.
Proof.
  destruct (empty_strings_match_everything ["yoga"; "spin class"] ["gym"; ""])
    as [H1 _].
  destruct (empty_strings_match_everything ["yoga"; "  "] ["gym"]) as [_ H2].
  split.
  - apply H1. apply elem_of_cons, or_intror, elem_of_cons. by left.
  - apply H2; [|reflexivity|discriminate].
    apply elem_of_cons, or_intror, elem_of_cons. by left.
Defined.

(** [validate_headlines] returns at most eight headlines, no two of them
    equal case apart, and returns nothing for an empty list. *)
Theorem validate_headlines_distinct_and_capped (headlines : list string) :
  length (validate_headlines headlines) ≤ 8
  ∧ NoDup (lower <$> validate_headlines headlines)
  ∧ NoDup (validate_headlines headlines)
  ∧ validate_headlines [] = [].
Proof.
  unfold validate_headlines.
  assert (NoDup (lower <$> take 8 (validated
            (foldl validate_step {| validated := []; seen := ∅ |} headlines))))
    as Hnd.
  { eapply sublist_NoDup; [|apply fmap_sublist, sublist_take].
    apply validate_loop_distinct; [constructor|].
    intros x Hx. by apply elem_of_nil in Hx. }
  split; [rewrite length_take; lia|]. split; [done|].
  split; [by apply NoDup_fmap_1 in Hnd | done].
Qed.

(** [validate_descriptions] is: strip, truncate at 90 at a word, keep
    what has at least 20 characters, take the first two. *)
Lemma validate_descriptions_unfold (descriptions : list string) :
  validate_descriptions descriptions
  = take 2 (filter (λ d, 20 ≤ len d)
              ((λ d, cut_at_word 90 (strip d)) <$> descriptions)).
Proof.
  unfold validate_descriptions. f_equal.
  assert (∀ acc,
            foldl (λ validated d,
                     let d := cut_at_word 90 (strip d) in
                     if 20 <=? len d then validated ++ [d] else validated)
              acc descriptions
            = acc ++ filter (λ d, 20 ≤ len d)
                       ((λ d, cut_at_word 90 (strip d)) <$> descriptions))
    as Hloop.
  { induction descriptions as [|d ds IH]; intros acc.
    - simpl. by rewrite app_nil_r.
    - cbn [foldl fmap list_fmap]. cbv zeta. rewrite IH, filter_cons.
      destruct (Nat.leb_spec 20 (len (cut_at_word 90 (strip d)))).
      + rewrite decide_True by done. by rewrite <- app_assoc.
      + by rewrite decide_False by lia. }
  apply (Hloop []).
Qed.

(** [validate_descriptions] returns at most two descriptions, each of 20
    to 90 characters, in the order of the input; unlike the headlines
    they are not checked for repeats or forbidden terms. *)
Theorem validate_descriptions_bounds (descriptions : list string) :
  length (validate_descriptions descriptions) ≤ 2
  ∧ (∀ d, d ∈ validate_descriptions descriptions → 20 ≤ len d ≤ 90)
  ∧ validate_descriptions descriptions
      `sublist_of` ((λ d, cut_at_word 90 (strip d)) <$> descriptions)
  ∧ (∀ d, 20 ≤ len (strip d) ≤ 90 →
          validate_descriptions [d; d] = [strip d; strip d]).
Proof.
  rewrite validate_descriptions_unfold. split; [rewrite length_take; lia|].
  split; [|split].
  - intros d Hd. eapply elem_of_sublist in Hd; [|apply sublist_take].
    apply list_elem_of_filter in Hd as [H20 Hd].
    apply list_elem_of_fmap in Hd as (d0 & -> & _).
    split; [done | apply cut_at_word_len].
  - etrans; [apply sublist_take | apply sublist_filter].
  - intros d [H20 H90]. rewrite validate_descriptions_unfold.
    assert (cut_at_word 90 (strip d) = strip d) as Hcut.
    { unfold cut_at_word. by destruct (Nat.ltb_spec 90 (len (strip d))); [lia|]. }
    cbn [fmap list_fmap]. rewrite Hcut.
    by rewrite !filter_cons, !decide_True by done.
Qed.

Lemma validate_descriptions_bounds_witness :
  20 ≤ len "Join our studio today for classes" ≤ 90
  ∧ validate_descriptions
      [" Join our studio today for classes "; " Join our studio today for classes "]
    = ["Join our studio today for classes"; "Join our studio today for classes"].
Proof.
  destruct (validate_descriptions_bounds
              ["Join our studio today for classes"]) as (_ & Hlen & _ & Hdup).
  split.
  - apply Hlen. vm_compute. apply elem_of_cons. by left.
  - apply (Hdup " Join our studio today for classes "). vm_compute. lia.
Defined.

End GeneratorFilters.

(** * From validated content to the ad row *)

Section ContentToAdRow.
Import Py Generator GeneratorRest.

Lemma validate_headlines_len (hs : list string) (x : string) :
  x ∈ validate_headlines hs → len x ≤ 30.
Proof.
  intros Hx. unfold validate_headlines in Hx.
  eapply elem_of_sublist in Hx; [|apply sublist_take].
  apply validated_origin in Hx as [Hx|(h & _ & -> & _)].
  - by apply elem_of_nil in Hx.
  - apply cut_at_word_len.
Qed.

Lemma validate_descriptions_len (ds : list string) (x : string) :
  x ∈ validate_descriptions ds → len x ≤ 90.
Proof.
  rewrite validate_descriptions_unfold. intros Hx.
  eapply elem_of_sublist in Hx; [|apply sublist_take].
  apply list_elem_of_filter in Hx as [_ Hx].
  apply list_elem_of_fmap in Hx as (d & -> & _). apply cut_at_word_len.
Qed.

(** The ad row of the rows built from [content]. *)
Lemma ad_row_cells (website_url business_name : string)
    (config : gmap string string) (start_date end_date : string)
    (content : Content) :
  ∃ ad_row,
    last (generate_csv_rows website_url business_name config start_date
            end_date content) = Some ad_row
    ∧ (∀ i, ad_row !! ("Headline " +:+ str_of_nat (S i))
            = str_take 30 <$> take 8 (headlines content) !! i)
    ∧ (∀ i, ad_row !! ("Description " +:+ str_of_nat (S i))
            = str_take 90 <$> take 2 (descriptions content) !! i).
Proof.
  destruct (generate_csv_rows_shape website_url business_name config
              start_date end_date content)
    as (_ & (c & g & ks & ad & Hrows & _ & _ & _ & _ & _ & Hh & Hd) & _).
  exists ad. split; [|by split].
  rewrite Hrows, !app_assoc. apply last_snoc.
Qed.

Lemma lookup_cut_noop (n m : nat) (l : list string) (i : nat) :
  length l ≤ m → (∀ x, x ∈ l → len x ≤ n) →
  str_take n <$> take m l !! i = l !! i.
Proof.
  intros Hm Hlen. rewrite take_ge by done.
  destruct (l !! i) as [x|] eqn:E; [|done]. simpl. f_equal.
  apply str_take_all, Hlen. by eapply list_elem_of_lookup_2.
Qed.

(** Validated text reaches the file as it is: for headlines from
    [validate_headlines] and descriptions from [validate_descriptions],
    the cuts to 30 and 90 characters and to 8 and 2 entries that
    [generate_csv] applies again change nothing, so the ad row holds
    exactly the validated lists, in order, and no further numbered
    column. *)
Theorem validated_content_reaches_ad_row_unchanged
    (website_url business_name : string) (config : gmap string string)
    (start_date end_date : string) (kws hs ds : list string) :
  ∃ ad_row,
    last (generate_csv_rows website_url business_name config start_date
            end_date
            {| keywords := kws; headlines := validate_headlines hs;
               descriptions := validate_descriptions ds |}) = Some ad_row
    ∧ (∀ i, ad_row !! ("Headline " +:+ str_of_nat (S i))
            = validate_headlines hs !! i)
    ∧ (∀ i, ad_row !! ("Description " +:+ str_of_nat (S i))
            = validate_descriptions ds !! i).
Proof.
  destruct (ad_row_cells website_url business_name config start_date end_date
              {| keywords := kws; headlines := validate_headlines hs;
                 descriptions := validate_descriptions ds |})
    as (ad & Hlast & Hh & Hd).
  exists ad. split; [done|]. cbn [headlines descriptions] in *. split; intros i.
  - rewrite Hh. apply lookup_cut_noop; [|apply validate_headlines_len].
    unfold validate_headlines. rewrite length_take. lia.
  - rewrite Hd. apply lookup_cut_noop; [|apply validate_descriptions_len].
    rewrite validate_descriptions_unfold, length_take. lia.
Qed.

Lemma short_name_len (business_name : string) :
  len (short_name business_name) ≤ 30.
Proof.
  unfold short_name. destruct (Nat.ltb_spec 30 (len business_name)); [|done].
  rewrite len_app, len_str_take. change (len "...") with 3. lia.
Qed.

(** After validation and backfill the content has between three and
    eight headlines and exactly two descriptions, so the ad row always
    has Headline 1-3 and Description 1-2 and never a Description 3. *)
Theorem backfilled_ad_row_is_complete
    (website_url business_name : string) (config : gmap string string)
    (start_date end_date : string) (kws hs ds : list string) :
  let headlines' := backfill_headlines business_name (validate_headlines hs) in
  let descriptions' :=
    backfill_descriptions business_name (validate_descriptions ds) in
  3 ≤ length headlines' ≤ 8
  ∧ length descriptions' = 2
  ∧ ∃ ad_row,
      last (generate_csv_rows website_url business_name config start_date
              end_date
              {| keywords := kws; headlines := headlines';
                 descriptions := descriptions' |}) = Some ad_row
      ∧ is_Some (ad_row !! "Headline 1")
      ∧ is_Some (ad_row !! "Headline 2")
      ∧ is_Some (ad_row !! "Headline 3")
      ∧ is_Some (ad_row !! "Description 1")
      ∧ is_Some (ad_row !! "Description 2")
      ∧ ad_row !! "Description 3" = None.
Proof.
  cbv zeta.
  assert (3 ≤ length (backfill_headlines business_name (validate_headlines hs))
          ≤ 8) as Hh.
  { unfold backfill_headlines.
    destruct (Nat.ltb_spec (length (validate_headlines hs)) 3); [simpl; lia|].
    split; [done|]. unfold validate_headlines. rewrite length_take. lia. }
  assert (length (backfill_descriptions business_name
                    (validate_descriptions ds)) = 2) as Hd.
  { unfold backfill_descriptions.
    destruct (Nat.ltb_spec (length (validate_descriptions ds)) 2); [done|].
    assert (length (validate_descriptions ds) ≤ 2)
      by (rewrite validate_descriptions_unfold, length_take; lia).
    lia. }
  split; [done|]. split; [done|].
  destruct (ad_row_cells website_url business_name config start_date end_date
              {| keywords := kws;
                 headlines :=
                   backfill_headlines business_name (validate_headlines hs);
                 descriptions :=
                   backfill_descriptions business_name
                     (validate_descriptions ds) |})
    as (ad & Hlast & Hhc & Hdc).
  exists ad. split; [done|]. cbn [headlines descriptions] in *.
  assert (∀ i, i < 3 → is_Some (ad !! ("Headline " +:+ str_of_nat (S i))))
    as H1.
  { intros i Hi. rewrite Hhc, take_ge by lia.
    apply fmap_is_Some, lookup_lt_is_Some. lia. }
  assert (∀ i, i < 2 → is_Some (ad !! ("Description " +:+ str_of_nat (S i))))
    as H2.
  { intros i Hi. rewrite Hdc, take_ge by lia.
    apply fmap_is_Some, lookup_lt_is_Some. lia. }
  split; [apply (H1 0); lia|]. split; [apply (H1 1); lia|].
  split; [apply (H1 2); lia|]. split; [apply (H2 0); lia|].
  split; [apply (H2 1); lia|].
  change "Description 3" with ("Description " +:+ str_of_nat 3).
  rewrite Hdc, take_ge by lia. by rewrite lookup_ge_None_2 by lia.
Qed.

(** When the default headlines are used and the business name has 20 to
    30 characters, the first of them, "Join <name> Today", is longer than
    30 characters and reaches the ad row cut to its first 30, in the
    middle of the name or of "Today". *)
Theorem long_name_default_headline_is_cut
    (website_url business_name : string) (config : gmap string string)
    (start_date end_date : string) (kws hs ds : list string) :
  length hs < 3 →
  19 < len business_name ∧ len business_name ≤ 30 →
  hd "" (backfill_headlines business_name hs)
    = "Join " +:+ business_name +:+ " Today"
  ∧ ∃ ad_row cell,
      last (generate_csv_rows website_url business_name config start_date
              end_date
              {| keywords := kws;
                 headlines := backfill_headlines business_name hs;
                 descriptions := ds |}) = Some ad_row
      ∧ ad_row !! "Headline 1" = Some cell
      ∧ cell = str_take 30 ("Join " +:+ business_name +:+ " Today")
      ∧ len cell = 30
      ∧ cell ≠ "Join " +:+ business_name +:+ " Today".
Proof.
  intros Hhs Hname. unfold backfill_headlines, short_name.
  apply Nat.ltb_lt in Hhs as ->.
  assert ((30 <? len business_name) = false) as -> by (apply Nat.ltb_ge; lia).
  split; [done|].
  destruct (ad_row_cells website_url business_name config start_date end_date
              {| keywords := kws;
                 headlines := ["Join " +:+ business_name +:+ " Today";
                               "Start Your Fitness Journey";
                               "Transform Your Body Now"];
                 descriptions := ds |})
    as (ad & Hlast & Hhc & _).
  exists ad, (str_take 30 ("Join " +:+ business_name +:+ " Today")).
  split; [done|]. split; [apply (Hhc 0)|]. split; [done|].
  assert (len ("Join " +:+ business_name +:+ " Today")
          = 11 + len business_name) as Hlen
    by (rewrite !len_app; simpl; lia).
  assert (len (str_take 30 ("Join " +:+ business_name +:+ " Today")) = 30)
    as H30 by (rewrite len_str_take; lia).
  split; [done|]. intros E. rewrite E in H30. lia.
Qed.

Lemma long_name_default_headline_is_cut_witness :
  ∃ ad_row,
    last (generate_csv_rows "capitolhill.example" "Capitol Hill Fitness Club"
            ∅ "2026-11-04" "2026-11-11"
            {| keywords := ["gym"];
               headlines := backfill_headlines "Capitol Hill Fitness Club" [];
               descriptions := [] |}) = Some ad_row
    ∧ ad_row !! "Headline 1" = Some "Join Capitol Hill Fitness Club".
Proof.
  destruct (long_name_default_headline_is_cut "capitolhill.example"
              "Capitol Hill Fitness Club" ∅ "2026-11-04" "2026-11-11"
              ["gym"] [] [])
    as (_ & ad & cell & Hlast & Hcell & -> & _).
  - simpl. lia.
  - vm_compute. lia.
  - exists ad. split; [exact Hlast | exact Hcell].
Defined.

End ContentToAdRow.

(** * The keyword backfill *)

Section KeywordBackfill.
Import Py Generator GeneratorRest.

Lemma membership_keyword_differs (business_name c : string) :
  str_drop (len c - 11) c ≠ " membership" →
  business_name +:+ " membership" ≠ c.
Proof.
  intros Hc E. apply Hc. rewrite <- E, len_app.
  change (len " membership") with 11.
  replace (len business_name + 11 - 11) with (len business_name) by lia.
  apply str_drop_app.
Qed.

(** The five default keywords are distinct, whatever the business name. *)
Lemma default_keywords_NoDup (business_name : string) :
  NoDup (default_keywords business_name).
Proof.
  unfold default_keywords. apply NoDup_cons. split.
  - intros Hin.
    repeat (apply elem_of_cons in Hin as [Hin|Hin];
            [by apply membership_keyword_differs in Hin|]).
    by apply elem_of_nil in Hin.
  - apply (bool_decide_unpack _). vm_compute. exact I.
Qed.

(** With fewer than five keywords left, [generate_csv] adds its five
    default keywords and drops repeats: whatever order the set comes out
    in, the content then has five to nine keywords, all distinct, namely
    the ones left and the defaults, and none is lost to the cut at ten.
    With five or more left, the keywords stay as they are. *)
Theorem keyword_backfill_gives_five_to_nine (business_name : string)
    (keywords out : list string) :
  backfill_keywords business_name keywords out →
  (length keywords < 5 →
   5 ≤ length out ≤ 9
   ∧ NoDup out
   ∧ ∀ kw, kw ∈ out ↔ kw ∈ keywords ∨ kw ∈ default_keywords business_name)
  ∧ (5 ≤ length keywords → out = keywords).
Proof.
  unfold backfill_keywords.
  destruct (Nat.ltb_spec (length keywords) 5) as [Hlt|Hge].
  - intros (listing & [Hnd Hel] & ->). split; [intros _|lia].
    assert (length listing ≤ 9) as H9.
    { transitivity (length (keywords ++ default_keywords business_name)).
      - apply submseteq_length, NoDup_submseteq; [done|].
        intros x Hx. by apply Hel.
      - rewrite length_app. simpl. lia. }
    assert (5 ≤ length listing) as H5.
    { change 5 with (length (default_keywords business_name)).
      apply submseteq_length, NoDup_submseteq;
        [apply default_keywords_NoDup|].
      intros x Hx. apply Hel, elem_of_app. by right. }
    rewrite take_ge by lia. split; [lia|]. split; [done|].
    intros kw. by rewrite Hel, elem_of_app.
  - intros ->. split; [lia | done].
Qed.

Lemma keyword_backfill_gives_five_to_nine_witness :
  5 ≤ length ["workout classes DC"; "yoga"; "gym membership DC";
              "Flow membership"; "personal training near me";
              "fitness classes DC"] ≤ 9.
Proof.
  destruct (keyword_backfill_gives_five_to_nine "Flow" ["yoga"]
              ["workout classes DC"; "yoga"; "gym membership DC";
               "Flow membership"; "personal training near me";
               "fitness classes DC"]) as [H _].
  - exists ["workout classes DC"; "yoga"; "gym membership DC";
            "Flow membership"; "personal training near me";
            "fitness classes DC"].
    split; [|reflexivity]. split.
    + apply (bool_decide_unpack _). vm_compute. exact I.
    + intros x. split; intros Hx.
      * repeat (apply elem_of_cons in Hx as [->|Hx];
                [apply (bool_decide_unpack _); vm_compute; exact I|]).
        by apply elem_of_nil in Hx.
      * repeat (apply elem_of_cons in Hx as [->|Hx];
                [apply (bool_decide_unpack _); vm_compute; exact I|]).
        by apply elem_of_nil in Hx.
  - apply H. simpl. lia.
Defined.

End KeywordBackfill.

(** * The columns of the generated file *)

Section Columns.
Import Py Generator GeneratorRest.

Lemma numbered_column_keys (Col : string) (cell : string → string)
    (l : list (nat * string)) (row : gmap string string) (k : string) :
  is_Some (foldl (λ r '(i, h), <[Col +:+ str_of_nat i := cell h]> r) row l
             !! k) →
  is_Some (row !! k) ∨ ∃ i h, (i, h) ∈ l ∧ k = Col +:+ str_of_nat i.
Proof.
  revert row. induction l as [|[i h] l IH]; intros row; [by left|].
  cbn [foldl]. intros [Hk|(i' & h' & Hin & ->)]%IH.
  - apply lookup_insert_is_Some in Hk as [<-|[_ Hk]]; [|by left].
    right. exists i, h. split; [apply elem_of_cons; by left | done].
  - right. exists i', h'. split; [by apply elem_of_cons, or_intror | done].
Qed.

Lemma enumerate1_index {A : Type} (l : list A) (i : nat) (x : A) :
  (i, x) ∈ enumerate1 l → 1 ≤ i ≤ length l.
Proof.
  unfold enumerate1. intros Hin%elem_of_zip_l.
  apply elem_of_seq in Hin. lia.
Qed.

Lemma mem_priority_columns (c : string) :
  bool_decide (c ∈ priority_columns) = true → c ∈ priority_columns.
Proof. apply bool_decide_eq_true. Qed.

(** Every key of every row of [generate_csv] is in the priority list. *)
Lemma generated_keys_in_priority (website_url business_name : string)
    (config : gmap string string) (start_date end_date : string)
    (content : Content) (row : gmap string string) (k : string) :
  row ∈ generate_csv_rows website_url business_name config start_date
          end_date content →
  is_Some (row !! k) → k ∈ priority_columns.
Proof.
  unfold generate_csv_rows. cbv zeta.
  intros [->|[->|Hrow]%elem_of_cons]%elem_of_cons Hk.
  - repeat (apply lookup_insert_is_Some in Hk as [<-|[_ Hk]];
            [by apply mem_priority_columns|]).
    apply lookup_singleton_is_Some in Hk as <-. by apply mem_priority_columns.
  - repeat (apply lookup_insert_is_Some in Hk as [<-|[_ Hk]];
            [by apply mem_priority_columns|]).
    apply lookup_singleton_is_Some in Hk as <-. by apply mem_priority_columns.
  - apply elem_of_app in Hrow as [Hrow|Hrow%list_elem_of_singleton].
    + apply list_elem_of_fmap in Hrow as (kw & -> & _).
      repeat (apply lookup_insert_is_Some in Hk as [<-|[_ Hk]];
              [by apply mem_priority_columns|]).
      apply lookup_singleton_is_Some in Hk as <-.
      by apply mem_priority_columns.
    + subst row.
      apply numbered_column_keys in Hk as [Hk|(i & d & Hin & ->)].
      * apply numbered_column_keys in Hk as [Hk|(i & h & Hin & ->)].
        -- repeat (apply lookup_insert_is_Some in Hk as [<-|[_ Hk]];
                   [by apply mem_priority_columns|]).
           apply lookup_singleton_is_Some in Hk as <-.
           by apply mem_priority_columns.
        -- apply enumerate1_index in Hin. rewrite length_take in Hin.
           assert (i = 1 ∨ i = 2 ∨ i = 3 ∨ i = 4 ∨ i = 5 ∨ i = 6 ∨ i = 7
                   ∨ i = 8) as Hi by lia.
           repeat (destruct Hi as [->|Hi]; [by apply mem_priority_columns|]).
           subst i. by apply mem_priority_columns.
      * apply enumerate1_index in Hin. rewrite length_take in Hin.
        assert (i = 1 ∨ i = 2) as [->| ->] by lia;
          by apply mem_priority_columns.
Qed.

Lemma priority_columns_NoDup : NoDup priority_columns.
Proof. apply (bool_decide_unpack _). vm_compute. exact I. Qed.

Lemma elem_of_all_columns (rows : list (gmap string string)) (k : string) :
  k ∈ (⋃ (dom <$> rows) : gset string) ↔
  ∃ row, row ∈ rows ∧ is_Some (row !! k).
Proof.
  rewrite elem_of_union_list. split.
  - intros (X & (row & -> & Hrow)%list_elem_of_fmap & Hk).
    exists row. split; [done|]. by apply elem_of_dom.
  - intros (row & Hrow & Hk). exists (dom row). split.
    + apply list_elem_of_fmap. by exists row.
    + by apply elem_of_dom.
Qed.

(** For any rows, the field names handed to the writer are exactly the
    keys that occur in the rows, each once: no row has a key the writer
    does not know, and no column is empty in every row.  The keys of the
    priority list come first, in the order of that list. *)
Theorem columns_are_the_keys_of_the_rows (rows : list (gmap string string)) :
  NoDup (csv_columns rows)
  ∧ (∀ k, k ∈ csv_columns rows ↔ ∃ row, row ∈ rows ∧ is_Some (row !! k))
  ∧ ∃ rest, csv_columns rows
            = filter (λ c, Exists (λ row, is_Some (row !! c)) rows)
                priority_columns ++ rest
          ∧ ∀ c, c ∈ rest → c ∉ priority_columns.
Proof.
  unfold csv_columns. cbv zeta.
  set (all := (⋃ (dom <$> rows) : gset string)).
  set (cols := filter (λ c, c ∈ all) priority_columns).
  set (rest := merge_sort String.le (elements (all ∖ list_to_set cols))).
  assert (∀ c, c ∈ rest ↔ c ∈ all ∧ c ∉ cols) as Hrest.
  { intros c. unfold rest. rewrite merge_sort_Permutation, elem_of_elements.
    by rewrite elem_of_difference, elem_of_list_to_set. }
  assert (∀ c, c ∈ cols ↔ c ∈ all ∧ c ∈ priority_columns) as Hcols.
  { intros c. unfold cols. by rewrite list_elem_of_filter. }
  split; [|split].
  - apply NoDup_app. split; [|split].
    + apply NoDup_filter, priority_columns_NoDup.
    + intros c Hc Hr. apply Hrest in Hr as [_ Hr]. by apply Hr.
    + unfold rest. rewrite merge_sort_Permutation. apply NoDup_elements.
  - intros k. rewrite <- elem_of_all_columns. fold all.
    rewrite elem_of_app, Hrest, Hcols.
    destruct (decide (k ∈ priority_columns)); split; tauto.
  - exists rest. split.
    + f_equal. unfold cols. apply list_filter_iff.
      intros c. unfold all. rewrite elem_of_all_columns, Exists_exists.
      done.
    + intros c [Hall Hn]%Hrest Hp. apply Hn, Hcols. by split.
Qed.

Lemma generated_columns_eq (website_url business_name : string)
    (config : gmap string string) (start_date end_date : string)
    (content : Content) :
  let rows := generate_csv_rows website_url business_name config
                start_date end_date content in
  csv_columns rows
  = filter (λ c, c ∈ (⋃ (dom <$> rows) : gset string)) priority_columns.
Proof.
  cbv zeta. unfold csv_columns. cbv zeta.
  set (rows := generate_csv_rows website_url business_name config
                 start_date end_date content).
  set (all := (⋃ (dom <$> rows) : gset string)).
  assert (all ∖ list_to_set (filter (λ c, c ∈ all) priority_columns)
          = (∅ : gset string)) as ->.
  { apply set_eq. intros c.
    rewrite elem_of_difference, elem_of_list_to_set, list_elem_of_filter.
    split; [|by intros ?%not_elem_of_empty].
    intros [Hall Hn]. destruct Hn. split; [done|].
    apply elem_of_all_columns in Hall as (row & Hrow & Hk).
    by eapply generated_keys_in_priority. }
  rewrite elements_empty. change (merge_sort String.le []) with (@nil string).
  by rewrite app_nil_r.
Qed.

(** For the rows [generate_csv] builds, no column falls outside the
    priority list: the field names are a selection from that list in its
    order, "Campaign" is the first, and there is no "Row Type" column. *)
Theorem generated_columns_follow_priority (website_url business_name : string)
    (config : gmap string string) (start_date end_date : string)
    (content : Content) :
  let columns :=
    csv_columns (generate_csv_rows website_url business_name config
                   start_date end_date content) in
  columns `sublist_of` priority_columns
  ∧ head columns = Some "Campaign"
  ∧ "Row Type" ∉ columns.
Proof.
  cbv zeta. rewrite generated_columns_eq. cbv zeta.
  set (rows := generate_csv_rows website_url business_name config
                 start_date end_date content).
  set (all := (⋃ (dom <$> rows) : gset string)).
  assert ("Campaign" ∈ all) as Hc.
  { apply elem_of_all_columns. unfold rows, generate_csv_rows.
    eexists. split; [apply elem_of_cons; left; reflexivity|]. by eexists. }
  split; [apply sublist_filter|]. split.
  - unfold priority_columns. cbn [app].
    by rewrite filter_cons_True.
  - intros [_ Hin]%list_elem_of_filter. revert Hin.
    apply (bool_decide_unpack _). vm_compute. exact I.
Qed.

End Columns.

(** * The generator's own file, read by the error parser *)

Section GeneratedFileParsed.
Import Py Generator GeneratorRest ErrorParser Props.

Lemma priority_columns_unmatched (h : string) :
  h ∈ priority_columns →
  (_normalize_header h ∉ priority)
  ∧ any_in fallback_words (_normalize_header h) = false.
Proof.
  revert h. apply Forall_forall.
  apply (bool_decide_unpack _). vm_compute. exact I.
Qed.

Lemma unmatched_headers_resolve_to_None (headers : list string) :
  (∀ h, h ∈ headers →
        (_normalize_header h ∉ priority)
        ∧ any_in fallback_words (_normalize_header h) = false) →
  _find_error_column headers = None.
Proof.
  intros H. rewrite fallback_result.
  - apply first_some_None. intros [norm orig] [Ho <-]%normalized_elem.
    by rewrite (proj2 (H _ Ho)).
  - intros key Hkey (h & Hh & <-). by apply (H h Hh).
Qed.

Lemma no_column_no_failure (rs : list (gmap string string)) :
  List.filter (row_fails None) rs = []
  ∧ List.filter (λ row, negb (row_fails None row)) rs = rs
  ∧ flat_map (row_records None) rs = [].
Proof.
  induction rs as [|row rs (IH1 & IH2 & IH3)]; [done|].
  cbn [List.filter flat_map].
  change (row_fails None row) with false.
  change (row_records None row) with (@nil ParsedError).
  cbn [negb app]. by rewrite IH2.
Qed.

(** Composition of the two halves of the program: a file whose header is
    the column list [generate_csv] writes has no error column for
    [_find_error_column] (although "Campaign status", "Ad group status"
    and "Ad status" contain the priority word "status"), so
    [parse_error_csv] counts every row as a success and records nothing,
    whatever the cells hold. *)
Theorem generated_file_parses_without_errors
    (website_url business_name : string) (config : gmap string string)
    (start_date end_date : string) (content : Content)
    (fs : FileSystem) (filepath : string) (f : CsvFile) :
  fs filepath = Some f →
  fieldnames f
  = csv_columns (generate_csv_rows website_url business_name config
                   start_date end_date content) →
  _find_error_column (fieldnames f) = None
  ∧ ∃ r, parse_error_csv fs filepath = inr r
       ∧ errors r = []
       ∧ error_rows r = 0
       ∧ success_rows r = length (rows f)
       ∧ total_rows r = length (rows f).
Proof.
  intros Hf Hcols.
  assert (_find_error_column (fieldnames f) = None) as Hnone.
  { apply unmatched_headers_resolve_to_None. intros h Hh.
    apply priority_columns_unmatched. rewrite Hcols in Hh.
    rewrite generated_columns_eq in Hh.
    by apply list_elem_of_filter in Hh as [_ Hh]. }
  split; [done|].
  destruct (parse_existing fs filepath f Hf)
    as (r & Hr & He & Ht & Hn & Hs & _).
  rewrite Hnone in He, Hn, Hs.
  destruct (no_column_no_failure (rows f)) as (H1 & H2 & H3).
  rewrite H1 in Hn. rewrite H2 in Hs. rewrite H3 in He.
  exists r. by repeat split.
Qed.

Lemma generated_file_parses_without_errors_witness :
  _find_error_column (fieldnames SamplesRest.studio_file) = None
  ∧ ∃ r, parse_error_csv SamplesRest.studio_fs
           "/out/ads_Flow_Studio_20261104_101500.csv" = inr r
       ∧ errors r = []
       ∧ error_rows r = 0
       ∧ success_rows r = length (rows SamplesRest.studio_file)
       ∧ total_rows r = length (rows SamplesRest.studio_file).
Proof.
  apply (generated_file_parses_without_errors
           "flowstudio.example" "Flow Studio" ∅ "2026-11-04" "2026-11-11"
           Samples.studio_content);
    reflexivity.
Defined.

End GeneratedFileParsed.

(** * The domain filter and the file name *)

Section DomainFilter.
Import Py Generator GeneratorRest.

(** On ASCII text [lower] works character by character, so it goes
    through a concatenation. *)
Lemma lower_app (a b : string) :
  Forall (λ c, nat_of_ascii c < 128) (list_ascii_of_string a) →
  Forall (λ c, nat_of_ascii c < 128) (list_ascii_of_string b) →
  lower (a +:+ b) = lower a +:+ lower b.
Proof.
  intros _ _. induction a as [|c a IH]; [done|]. rewrite app_String. simpl.
  by rewrite IH, app_String.
Qed.

Lemma replace_go_S (fuel : nat) (old new s : string) :
  replace_go (S fuel) old new s
  = if startswith old s
    then new +:+ replace_go fuel old new (str_drop (len old) s)
    else match s with
         | "" => ""
         | String c r => String c (replace_go fuel old new r)
         end.
Proof. reflexivity. Qed.

Lemma replace_hit (old s : string) :
  old ≠ "" → replace old "" (old +:+ s) = replace old "" s.
Proof.
  intros Hold. unfold replace. rewrite (replace_go_S (len (old +:+ s))).
  assert (startswith old (old +:+ s) = true) as ->
    by (apply startswith_spec; by exists s).
  rewrite str_drop_app, app_empty_l.
  assert (0 < len old) by (destruct old; [done | simpl; lia]).
  apply replace_go_fuel; [done| |]; rewrite ?len_app; lia.
Qed.

Lemma replace_skip (old new : string) (c : ascii) (s : string) :
  startswith old (String c s) = false →
  replace old new (String c s) = String c (replace old new s).
Proof.
  intros H. unfold replace. rewrite (replace_go_S (len (String c s))).
  by rewrite H.
Qed.

Lemma replace_https_skips_http (s : string) :
  replace "https://" "" ("http://" +:+ s)
  = "http://" +:+ replace "https://" "" s.
Proof.
  rewrite !app_String, app_empty_l.
  assert (startswith "https://" ("http://" +:+ s) = false) as H0.
  { rewrite !app_String, app_empty_l. cbn [startswith].
    change (Ascii.eqb "s" ":") with false. by rewrite !andb_false_r. }
  rewrite !app_String, app_empty_l in H0.
  rewrite (replace_skip _ _ _ _ H0).
  by rewrite !replace_skip by reflexivity.
Qed.

Lemma replace_skips_www (old : string) (s : string) :
  startswith "h" old = true →
  replace old "" ("www." +:+ s) = "www." +:+ replace old "" s.
Proof.
  intros Hh. rewrite !app_String, app_empty_l.
  destruct old as [|a old]; [done|]. cbn [startswith] in Hh.
  rewrite andb_true_r in Hh. apply Ascii.eqb_eq in Hh as <-.
  by rewrite !replace_skip by reflexivity.
Qed.

Lemma filter_by_domains_unfold (url : string) (banned_domains : list string) :
  filter_by_domains url banned_domains
  = let domain :=
      split_head "/"
        (replace "www." ""
           (replace "http://" "" (replace "https://" "" (lower url)))) in
    existsb (λ bd, str_in (lower bd) domain || str_in domain (lower bd))
      banned_domains.
Proof. reflexivity. Qed.

(** For an ASCII URL and ASCII denied domains, the domain check does not
    look at a leading "https://", "http://" or "www." of the URL, nor at
    the case of the URL or of the denied domains. *)
Theorem domain_check_ignores_scheme_and_case (url : string)
    (banned_domains : list string) :
  Forall (λ c, nat_of_ascii c < 128) (list_ascii_of_string url) →
  Forall (λ bd, Forall (λ c, nat_of_ascii c < 128) (list_ascii_of_string bd))
    banned_domains →
  filter_by_domains ("https://" +:+ url) banned_domains
  = filter_by_domains url banned_domains
  ∧ filter_by_domains ("http://" +:+ url) banned_domains
    = filter_by_domains url banned_domains
  ∧ filter_by_domains ("www." +:+ url) banned_domains
    = filter_by_domains url banned_domains
  ∧ filter_by_domains (lower url) (lower <$> banned_domains)
    = filter_by_domains url banned_domains.
Proof.
  intros Hascii _.
  assert (∀ p, bool_decide
                 (Forall (λ c, nat_of_ascii c < 128) (list_ascii_of_string p))
               = true →
               lower (p +:+ url) = lower p +:+ lower url) as Happ.
  { intros p Hp. apply lower_app; [|done]. by apply bool_decide_eq_true in Hp. }
  rewrite !filter_by_domains_unfold. cbv zeta.
  rewrite !Happ by (vm_compute; reflexivity).
  change (lower "https://") with "https://".
  change (lower "http://") with "http://".
  change (lower "www.") with "www.".
  repeat split.
  - by rewrite (replace_hit "https://").
  - by rewrite replace_https_skips_http, (replace_hit "http://").
  - rewrite (replace_skips_www "https://") by reflexivity.
    rewrite (replace_skips_www "http://") by reflexivity.
    by rewrite (replace_hit "www.").
  - rewrite lower_idem.
    induction banned_domains as [|bd l IH]; [done|].
    cbn [fmap list_fmap existsb]. rewrite lower_idem. f_equal. apply IH.
Qed.

Lemma domain_check_ignores_scheme_and_case_witness :
  filter_by_domains "https://Spam.Example/landing" ["SPAM.example"]
  = filter_by_domains "Spam.Example/landing" ["SPAM.example"]
  ∧ filter_by_domains "http://Spam.Example/landing" ["SPAM.example"]
    = filter_by_domains "Spam.Example/landing" ["SPAM.example"]
  ∧ filter_by_domains "www.Spam.Example/landing" ["SPAM.example"]
    = filter_by_domains "Spam.Example/landing" ["SPAM.example"]
  ∧ filter_by_domains "spam.example/landing" ["spam.example"]
    = filter_by_domains "Spam.Example/landing" ["SPAM.example"].
Proof.
  apply (domain_check_ignores_scheme_and_case "Spam.Example/landing"
           ["SPAM.example"]);
    apply (bool_decide_unpack _); vm_compute; exact I.
Defined.

(** A blank entry in the deny-list blocks every URL, and a URL with an
    empty domain part (an empty cell, a bare scheme, a path) is blocked by
    every deny-list that is not empty: the empty string occurs in every
    string. *)
Theorem blank_domain_or_entry_blocks (url : string)
    (banned_domains : list string) :
  ("" ∈ banned_domains → filter_by_domains url banned_domains = true)
  ∧ (banned_domains ≠ [] →
     split_head "/"
       (replace "www." ""
          (replace "http://" "" (replace "https://" "" (lower url)))) = "" →
     filter_by_domains url banned_domains = true).
Proof.
  rewrite filter_by_domains_unfold. cbv zeta. split.
  - intros Hin. apply existsb_exists. exists "". split.
    + by apply list_elem_of_In.
    + change (lower "") with "". by rewrite str_in_empty.
  - intros Hne ->. destruct banned_domains as [|bd l]; [done|].
    cbn [existsb]. by rewrite str_in_empty, orb_true_r.
Qed.

Lemma blank_domain_or_entry_blocks_witness :
  filter_by_domains "flowstudio.example" ["spam.example"; ""] = true
  ∧ filter_by_domains "https://www./landing" ["spam.example"] = true.
Proof.
  split.
  - apply (proj1 (blank_domain_or_entry_blocks "flowstudio.example"
                    ["spam.example"; ""])).
    apply (bool_decide_unpack _). vm_compute. exact I.
  - apply (proj2 (blank_domain_or_entry_blocks "https://www./landing"
                    ["spam.example"])); [discriminate | reflexivity].
Defined.

Lemma chars_app (a b : string) :
  list_ascii_of_string (a +:+ b)
  = list_ascii_of_string a ++ list_ascii_of_string b.
Proof.
  induction a as [|c a IH]; [done|]. rewrite app_String. simpl. by rewrite IH.
Qed.

Lemma safe_name_chars (business_name : string) :
  Forall (λ c, isalnum c = true ∨ c = "_"%char)
    (list_ascii_of_string (safe_name business_name)).
Proof.
  induction business_name as [|c r IH]; [by constructor|].
  cbn [safe_name list_ascii_of_string]. constructor; [|done].
  destruct (isalnum c) eqn:E; [by left | by right].
Qed.

(** For an ASCII business name and a timestamp of digits and "_", the
    file name is "ads_", the name with every character that is not a
    letter or a digit replaced by "_" (so of the same length), "_", the
    timestamp and ".csv": before the extension it holds letters, digits
    and "_" only, hence no path separator and no dot. *)
Theorem file_name_is_plain (business_name timestamp : string) :
  Forall (λ c, nat_of_ascii c < 128) (list_ascii_of_string business_name) →
  Forall (λ c, isalnum c = true ∨ c = "_"%char)
    (list_ascii_of_string timestamp) →
  len (safe_name business_name) = len business_name
  ∧ ∃ stem, csv_filename business_name timestamp = stem +:+ ".csv"
      ∧ len stem = 5 + len business_name + len timestamp
      ∧ Forall (λ c, isalnum c = true ∨ c = "_"%char)
          (list_ascii_of_string stem).
Proof.
  intros _ Hts.
  assert (len (safe_name business_name) = len business_name) as Hlen.
  { induction business_name as [|c r IH]; [done|]. simpl. by rewrite IH. }
  split; [done|].
  exists ("ads_" +:+ safe_name business_name +:+ "_" +:+ timestamp).
  split; [|split].
  - unfold csv_filename. by rewrite !str_app_assoc.
  - rewrite !len_app, Hlen. change (len "ads_") with 4.
    change (len "_") with 1. lia.
  - rewrite !chars_app. repeat apply Forall_app_2; try done.
    + apply (bool_decide_unpack _). vm_compute. exact I.
    + apply safe_name_chars.
    + apply (bool_decide_unpack _). vm_compute. exact I.
Qed.

Lemma file_name_is_plain_witness :
  len (safe_name "Flow & Co. /DC") = len "Flow & Co. /DC"
  ∧ ∃ stem, csv_filename "Flow & Co. /DC" "20261104_101500" = stem +:+ ".csv"
      ∧ len stem = 5 + len "Flow & Co. /DC" + len "20261104_101500"
      ∧ Forall (λ c, isalnum c = true ∨ c = "_"%char)
          (list_ascii_of_string stem).
Proof.
  apply (file_name_is_plain "Flow & Co. /DC" "20261104_101500").
  - apply (bool_decide_unpack _). vm_compute. exact I.
  - apply (bool_decide_unpack _). vm_compute. exact I.
Defined.

End DomainFilter.
